(** * Tool invocation and response parsing of the agent loop

    A shallow embedding of [decision.py] (the protocol parser), of
    [Action.act] and the tools of [action.py] that the dispatcher is
    specified on, and of the iteration loop of [main.py].

    Conventions of the embedding.
    - A Python [str] is a [string]; its characters are the code points
      0..255, so that [str.strip()] removes exactly the characters for which
      [str.isspace()] holds in that range.
    - A Python [dict] is an association list in insertion order with unique
      keys ([PyDict.set] updates in place or appends): the order decides
      which unknown parameter is reported and how the keys are logged.
    - A computation that may raise returns a [result]: [Return v] or
      [Raise e].  An exception records its class and [str(e)]; the clause
      [except Exception] catches the classes deriving from [Exception] only.
    - Logging is modelled by the list of records handed to the logger, and
      the execution of tool bodies by the list of calls made. *)

From Stdlib Require Import String Ascii List Bool Arith ZArith Lia DecimalString.
Import ListNotations.
Open Scope list_scope.
Open Scope string_scope.
Open Scope nat_scope.

(** ** Python string primitives *)

Module PyStr.

(** [str.isspace()] on one character, code points 0..255. *)
Definition isspace (c : ascii) : bool :=
  let n := nat_of_ascii c in
  (((9 <=? n) && (n <=? 13)) || ((28 <=? n) && (n <=? 32))
   || (n =? 133) || (n =? 160))%nat.

(** Membership of a character in a string, as in [c in chars]. *)
Fixpoint mem (c : ascii) (chars : string) : bool :=
  match chars with
  | EmptyString => false
  | String d rest => Ascii.eqb c d || mem c rest
  end.

Definition is_empty (s : string) : bool :=
  match s with EmptyString => true | _ => false end.

(** [s.lstrip(...)], [s.rstrip(...)] and [s.strip(...)] for a set of
    characters given by a predicate. *)
Fixpoint lstrip_by (p : ascii -> bool) (s : string) : string :=
  match s with
  | EmptyString => EmptyString
  | String c rest => if p c then lstrip_by p rest else s
  end.

Fixpoint rstrip_by (p : ascii -> bool) (s : string) : string :=
  match s with
  | EmptyString => EmptyString
  | String c rest =>
      let r := rstrip_by p rest in
      if is_empty r && p c then EmptyString else String c r
  end.

Definition strip_by (p : ascii -> bool) (s : string) : string :=
  rstrip_by p (lstrip_by p s).

(** [s.strip()] *)
Definition strip (s : string) : string := strip_by isspace s.

(** [s.strip(chars)] *)
Definition strip_chars (chars : string) (s : string) : string :=
  strip_by (fun c => mem c chars) s.

(** [s.startswith(p)] *)
Definition startswith (p s : string) : bool := String.prefix p s.

(** [sub in s] *)
Fixpoint contains (sub s : string) : bool :=
  String.prefix sub s ||
  match s with
  | EmptyString => false
  | String _ rest => contains sub rest
  end.

(** [s.endswith(p)] *)
Fixpoint endswith (p s : string) : bool :=
  String.eqb p s ||
  match s with
  | EmptyString => false
  | String _ rest => endswith p rest
  end.

(** [s.count(c)] for a one-character pattern. *)
Fixpoint count (c : ascii) (s : string) : nat :=
  match s with
  | EmptyString => 0
  | String d rest => ((if Ascii.eqb d c then 1 else 0) + count c rest)%nat
  end.

(** [s.split(sep)] for a one-character separator: the first field and the
    remaining ones (the result of [split] is never empty). *)
Fixpoint split_ne (sep : ascii) (s : string) : string * list string :=
  match s with
  | EmptyString => (EmptyString, [])
  | String c rest =>
      let (h, t) := split_ne sep rest in
      if Ascii.eqb c sep then (EmptyString, h :: t) else (String c h, t)
  end.

Definition split (sep : ascii) (s : string) : list string :=
  let (h, t) := split_ne sep s in h :: t.

(** [s.split(sep, 1)]: the text before the first separator and, when there
    is one, the text after it. *)
Fixpoint split_once (sep : ascii) (s : string) : string * option string :=
  match s with
  | EmptyString => (EmptyString, None)
  | String c rest =>
      if Ascii.eqb c sep then (EmptyString, Some rest)
      else let (h, t) := split_once sep rest in (String c h, t)
  end.

(** [sep.join(l)] *)
Fixpoint join (sep : string) (l : list string) : string :=
  match l with
  | [] => EmptyString
  | [x] => x
  | x :: rest => x ++ sep ++ join sep rest
  end.

(** [c * n] for a one-character string [c]. *)
Fixpoint repeat_char (c : ascii) (n : nat) : string :=
  match n with
  | O => EmptyString
  | S k => String c (repeat_char c k)
  end.

(** [str(n)] for a natural number. *)
Definition of_nat (n : nat) : string := NilZero.string_of_uint (Nat.to_uint n).

Definition newline : ascii := ascii_of_nat 10.

(** The double quote, and a text between double quotes. *)
Definition dquote : ascii := ascii_of_nat 34.
Definition quoted (s : string) : string :=
  String dquote s ++ String dquote EmptyString.

End PyStr.

(** ** Exceptions, results and values *)

Inductive pyclass :=
| ValueError
| TypeError
| IndexError
| AttributeError
| ZeroDivisionError
| JSONDecodeError
| TimeoutError
| OtherException (name : string)
| SystemExit
| KeyboardInterrupt
| CancelledError.

(** [isinstance(e, Exception)]: the last three classes derive from
    [BaseException] only. *)
Definition isinstance_Exception (c : pyclass) : bool :=
  match c with
  | SystemExit | KeyboardInterrupt | CancelledError => false
  | _ => true
  end.

Record exc := mkExc { exc_class : pyclass; exc_str : string }.

Inductive result (A : Type) :=
| Return (a : A)
| Raise (e : exc).
Arguments Return {A} a.
Arguments Raise {A} e.

Definition bind {A B} (r : result A) (k : A -> result B) : result B :=
  match r with
  | Return a => k a
  | Raise e => Raise e
  end.

#[warnings="-register-all"]
Inductive value :=
| VNone
| VBool (b : bool)
| VInt (z : Z)
| VFloat (repr : string)
| VStr (s : string)
| VList (l : list value)
| VDict (d : list (string * value))
| VTextContent (type_ text : string)
| VCoroutine (awaited : result value).

(** ** decision.py *)

Module Decision.

(** The loop of lines 21-25: the first line whose stripped form starts with
    the directive, stripped. *)
Fixpoint function_call_line (lines : list string) : option string :=
  match lines with
  | [] => None
  | line :: rest =>
      let line := PyStr.strip line in
      if PyStr.startswith "FUNCTION_CALL:" line then Some line
      else function_call_line rest
  end.

(** [Decision.get_decision]: the pair [(func_name, params)], [None] being
    Python's [None]. *)
Definition get_decision (response_text : string)
  : option string * option (list string) :=
  match function_call_line (PyStr.split PyStr.newline response_text) with
  | Some line =>
      let function_info :=
        match snd (PyStr.split_once ":" line) with
        | Some info => info
        | None => EmptyString
        end in
      let (func_name, params) := PyStr.split_ne "|" function_info in
      (Some (PyStr.strip func_name), Some (map PyStr.strip params))
  | None =>
      if PyStr.contains "FINAL_ANSWER:" response_text
      then (None, None)
      else (None, None)
  end.

End Decision.

(** ** Python dictionaries *)

Module PyDict.

Section Dict.
Context {V : Type}.

(** [d.get(k)] *)
Fixpoint get (d : list (string * V)) (k : string) : option V :=
  match d with
  | [] => None
  | (k', v) :: rest => if String.eqb k k' then Some v else get rest k
  end.

(** [d[k] = v] *)
Fixpoint set (d : list (string * V)) (k : string) (v : V) : list (string * V) :=
  match d with
  | [] => [(k, v)]
  | (k', v') :: rest =>
      if String.eqb k k' then (k, v) :: rest else (k', v') :: set rest k v
  end.

(** [list(d.keys())] *)
Definition keys (d : list (string * V)) : list string := map fst d.

(** [k in names] for a list of names. *)
Definition mem (k : string) (names : list string) : bool :=
  existsb (String.eqb k) names.

End Dict.

End PyDict.

(** ** The library function [json.loads]

    A model of the decoder of the standard library for the JSON grammar:
    objects, arrays, strings with their escapes, numbers, [true], [false],
    [null].  An integer literal is a [VInt]; a literal with a fraction or an
    exponent is kept as a [VFloat] holding its text.  A failure is a
    [JSONDecodeError] whose text is the decoder's message followed by the
    position, as the decoder written in C words it.  A [\u] escape above
    code point 255 is outside the characters of the embedding and reported as
    an exception of its own.  The depth of nesting is not bounded. *)

Module Json.

Definition ws (c : ascii) : bool :=
  let n := nat_of_ascii c in ((n =? 32) || (n =? 9) || (n =? 10) || (n =? 13))%nat.

Definition skip_ws (s : string) : string := PyStr.lstrip_by ws s.

Definition is_digit (c : ascii) : bool :=
  let n := nat_of_ascii c in ((48 <=? n) && (n <=? 57))%nat.

Definition hex_digit (c : ascii) : option nat :=
  let n := nat_of_ascii c in
  if ((48 <=? n) && (n <=? 57))%nat then Some (n - 48)
  else if ((65 <=? n) && (n <=? 70))%nat then Some (n - 55)
  else if ((97 <=? n) && (n <=? 102))%nat then Some (n - 87)
  else None.

(** Line and column (both from 1) of the position that follows [prefix]. *)
Fixpoint linecol (prefix : string) (line col : nat) : nat * nat :=
  match prefix with
  | EmptyString => (line, col)
  | String c rest =>
      if Ascii.eqb c PyStr.newline then linecol rest (S line) 1
      else linecol rest line (S col)
  end.

Fixpoint take (n : nat) (s : string) : string :=
  match n, s with
  | S k, String c rest => String c (take k rest)
  | _, _ => EmptyString
  end.

Fixpoint drop (n : nat) (s : string) : string :=
  match n, s with
  | S k, String _ rest => drop k rest
  | _, _ => s
  end.

Section Decoder.
Variable doc : string.

(** [JSONDecodeError(msg, doc, pos)] where [pos] is the position at which
    [rest] starts in [doc]. *)
Definition error {A} (msg : string) (rest : string) : result A :=
  let pos := String.length doc - String.length rest in
  let (line, col) := linecol (take pos doc) 1 1 in
  Raise (mkExc JSONDecodeError
           (msg ++ ": line " ++ PyStr.of_nat line ++ " column " ++ PyStr.of_nat col
                ++ " (char " ++ PyStr.of_nat pos ++ ")")).

(** The characters of a string literal after its opening quote; [start] is
    the text from the opening quote on, for the error position. *)
Fixpoint scanstring (start s : string) : result (string * string) :=
  match s with
  | EmptyString => error "Unterminated string starting at" start
  | String c rest =>
      if Ascii.eqb c PyStr.dquote then Return (EmptyString, rest)
      else if Ascii.eqb c "\" then
        match rest with
        | EmptyString => error "Unterminated string starting at" start
        | String e rest' =>
            let plain (d : ascii) :=
              bind (scanstring start rest')
                   (fun '(body, after) => Return (String d body, after)) in
            if PyStr.mem e (String PyStr.dquote "\/") then plain e
            else if Ascii.eqb e "b" then plain (ascii_of_nat 8)
            else if Ascii.eqb e "f" then plain (ascii_of_nat 12)
            else if Ascii.eqb e "n" then plain (ascii_of_nat 10)
            else if Ascii.eqb e "r" then plain (ascii_of_nat 13)
            else if Ascii.eqb e "t" then plain (ascii_of_nat 9)
            else if Ascii.eqb e "u" then
              match rest' with
              | String h1 (String h2 (String h3 (String h4 (String _ _ as rest'')))) =>
                  match hex_digit h1, hex_digit h2, hex_digit h3, hex_digit h4 with
                  | Some a, Some b, Some c', Some d =>
                      let code := ((a * 16 + b) * 16 + c') * 16 + d in
                      if code <? 256 then
                        bind (scanstring start rest'')
                             (fun '(body, after) =>
                                Return (String (ascii_of_nat code) body, after))
                      else Raise (mkExc (OtherException "CodePointAbove255")
                                        "escape outside the characters of the embedding")
                  | _, _, _, _ => error "Invalid \uXXXX escape" rest
                  end
              | _ => error "Invalid \uXXXX escape" rest
              end
            else error "Invalid \escape" s
        end
      else if nat_of_ascii c <? 32 then error "Invalid control character at" s
      else bind (scanstring start rest)
                (fun '(body, after) => Return (String c body, after))
  end.

(** The longest prefix of digits and what follows it. *)
Fixpoint digits (s : string) : string * string :=
  match s with
  | EmptyString => (EmptyString, EmptyString)
  | String c rest =>
      if is_digit c then let (d, after) := digits rest in (String c d, after)
      else (EmptyString, s)
  end.

Fixpoint Z_of_digits (acc : Z) (d : string) : Z :=
  match d with
  | EmptyString => acc
  | String c rest => Z_of_digits (acc * 10 + Z.of_nat (nat_of_ascii c - 48))%Z rest
  end.

(** The integer part of a number: [0] or a digit from 1 to 9 followed by
    digits. *)
Definition int_part (s : string) : option (string * string) :=
  match s with
  | String c rest =>
      if Ascii.eqb c "0" then Some ("0", rest)
      else if is_digit c then let (d, after) := digits rest in Some (String c d, after)
      else None
  | EmptyString => None
  end.

(** The optional fraction and exponent of a number. *)
Definition frac_part (s : string) : string * string :=
  match s with
  | String c rest =>
      if Ascii.eqb c "." then
        match digits rest with
        | (EmptyString, _) => (EmptyString, s)
        | (d, after) => (String c d, after)
        end
      else (EmptyString, s)
  | EmptyString => (EmptyString, s)
  end.

Definition exp_part (s : string) : string * string :=
  match s with
  | String c rest =>
      if PyStr.mem c "eE" then
        let (sign, rest') :=
          match rest with
          | String g r => if PyStr.mem g "+-" then (String g EmptyString, r)
                          else (EmptyString, rest)
          | EmptyString => (EmptyString, rest)
          end in
        match digits rest' with
        | (EmptyString, _) => (EmptyString, s)
        | (d, after) => (String c (sign ++ d), after)
        end
      else (EmptyString, s)
  | EmptyString => (EmptyString, s)
  end.

(** A number at the head of [s], when there is one. *)
Definition number (s : string) : option (value * string) :=
  let (minus, s1) :=
    match s with
    | String c rest => if Ascii.eqb c "-" then (true, rest) else (false, s)
    | EmptyString => (false, s)
    end in
  match int_part s1 with
  | None => None
  | Some (i, s2) =>
      let (f, s3) := frac_part s2 in
      let (e, s4) := exp_part s3 in
      if PyStr.is_empty f && PyStr.is_empty e then
        let n := Z_of_digits 0%Z i in
        Some (VInt (if minus then Z.opp n else n), s4)
      else Some (VFloat ((if minus then "-" else EmptyString) ++ i ++ f ++ e), s4)
  end.

(** [scan_once], with the loops of the array and object decoders. *)
Fixpoint scan_value (fuel : nat) (s : string) : result (value * string) :=
  match fuel with
  | O => Raise (mkExc (OtherException "RecursionError")
                      "maximum recursion depth exceeded")
  | S fuel =>
      match s with
      | EmptyString => error "Expecting value" s
      | String c rest =>
          if Ascii.eqb c PyStr.dquote then
            bind (scanstring s rest) (fun '(str, after) => Return (VStr str, after))
          else if Ascii.eqb c "{" then
            let s1 := skip_ws rest in
            if PyStr.startswith "}" s1
            then Return (VDict [], drop 1 s1)
            else bind (scan_members fuel s1 [])
                      (fun '(d, after) => Return (VDict d, after))
          else if Ascii.eqb c "[" then
            let s1 := skip_ws rest in
            if PyStr.startswith "]" s1
            then Return (VList [], drop 1 s1)
            else bind (scan_elements fuel s1 [])
                      (fun '(l, after) => Return (VList l, after))
          else if PyStr.startswith "null" s
            then Return (VNone, drop 4 s)
          else if PyStr.startswith "true" s
            then Return (VBool true, drop 4 s)
          else if PyStr.startswith "false" s
            then Return (VBool false, drop 5 s)
          else if PyStr.startswith "NaN" s
            then Return (VFloat "nan", drop 3 s)
          else if PyStr.startswith "Infinity" s
            then Return (VFloat "inf", drop 8 s)
          else if PyStr.startswith "-Infinity" s
            then Return (VFloat "-inf", drop 9 s)
          else match number s with
               | Some r => Return r
               | None => error "Expecting value" s
               end
      end
  end

with scan_elements (fuel : nat) (s : string) (acc : list value)
  : result (list value * string) :=
  match fuel with
  | O => Raise (mkExc (OtherException "RecursionError")
                      "maximum recursion depth exceeded")
  | S fuel =>
      bind (scan_value fuel s)
           (fun '(v, after) =>
              let acc := (acc ++ [v])%list in
              match skip_ws after with
              | String c rest =>
                  if Ascii.eqb c "]" then Return (acc, rest)
                  else if Ascii.eqb c "," then scan_elements fuel (skip_ws rest) acc
                  else error "Expecting ',' delimiter" (skip_ws after)
              | EmptyString => error "Expecting ',' delimiter" EmptyString
              end)
  end

with scan_members (fuel : nat) (s : string) (acc : list (string * value))
  : result (list (string * value) * string) :=
  match fuel with
  | O => Raise (mkExc (OtherException "RecursionError")
                      "maximum recursion depth exceeded")
  | S fuel =>
      match s with
      | String c rest =>
          if Ascii.eqb c PyStr.dquote then
            bind (scanstring s rest)
                 (fun '(key, after) =>
                    match skip_ws after with
                    | String c1 rest1 =>
                        if Ascii.eqb c1 ":" then
                          bind (scan_value fuel (skip_ws rest1))
                               (fun '(v, after1) =>
                                  let acc := PyDict.set acc key v in
                                  match skip_ws after1 with
                                  | String c2 rest2 =>
                                      if Ascii.eqb c2 "}" then Return (acc, rest2)
                                      else if Ascii.eqb c2 ","
                                      then scan_members fuel (skip_ws rest2) acc
                                      else error "Expecting ',' delimiter"
                                                 (skip_ws after1)
                                  | EmptyString =>
                                      error "Expecting ',' delimiter" EmptyString
                                  end)
                        else error "Expecting ':' delimiter" (skip_ws after)
                    | EmptyString => error "Expecting ':' delimiter" EmptyString
                    end)
          else error "Expecting property name enclosed in double quotes" s
      | EmptyString =>
          error "Expecting property name enclosed in double quotes" s
      end
  end.

End Decoder.

(** [json.loads(doc)] *)
Definition loads (doc : string) : result value :=
  bind (scan_value doc (2 * String.length doc + 2) (skip_ws doc))
       (fun '(v, after) =>
          match skip_ws after with
          | EmptyString => Return v
          | rest => error doc "Extra data" rest
          end).

End Json.

(** ** action.py: the dispatcher *)

Module Action.

Definition arguments := list (string * value).

(** What [act] knows of a registered callable: the names of
    [inspect.signature(tool).parameters] in order, whether
    [asyncio.iscoroutinefunction(tool)] holds, and the outcome of
    calling it with the arguments as keywords (for a coroutine function, of
    awaiting the coroutine that the call returns). *)
Record tool := mkTool {
  parameters : list string;
  iscoroutinefunction : bool;
  call : arguments -> result value
}.

(** [params]: a list of tokens or a dictionary of named values. *)
Inductive raw_params :=
| ParamList (l : list value)
| ParamDict (d : list (string * value)).

(** The records handed to [logger]; one constructor for each call site of
    [act], named after its message. *)
Inductive log_record :=
| AvailableTools (keys : list string)                          (* line 110 *)
| SpecialHandling                                              (* line 131 *)
| RawParams (params : list value)                              (* line 132 *)
| ParamCount (n : nat)                                         (* line 133 *)
| CombiningParams                                              (* line 137 *)
| SingleParamValue (v : value)                                 (* lines 142-143 *)
| ParsedListValue (v : value)                                  (* line 153 *)
| ParsedJSONValue (v : value)                                  (* line 161 *)
| FailedToParseJSON (e : exc)                                  (* line 163 *)
| FinalArgumentsSpecial (a : arguments)                        (* line 167 *)
| FinalArguments (a : arguments)                               (* line 201 *)
| CallingTool (func_name : string)                             (* line 202 *)
| ErrorWhileCallingTool (func_name : string) (e : exc)         (* line 217 *)
| ErrorInActMethod (func_name : string) (e : exc).             (* line 221 *)

(** What a run of [act] leaves behind: log records, and the invocations of
    registered callables with the arguments they received. *)
Inductive event :=
| Log (r : log_record)
| Called (func_name : string) (a : arguments).

(** Computations of [act]: the events so far and a result. *)
Definition M (A : Type) : Type := list event * result A.

Definition ret {A} (a : A) : M A := ([], Return a).
Definition raise {A} (e : exc) : M A := ([], Raise e).
Definition tell (ev : event) : M unit := ([ev], Return tt).
Definition lift {A} (r : result A) : M A := ([], r).

Definition mbind {A B} (m : M A) (k : A -> M B) : M B :=
  match m with
  | (evs, Return a) => let (evs', r) := k a in ((evs ++ evs')%list, r)
  | (evs, Raise e) => (evs, Raise e)
  end.

Notation "x <- m ;; k" := (mbind m (fun x => k))
  (at level 61, m at next level, right associativity).
Notation "m ;;; k" := (mbind m (fun _ => k))
  (at level 61, right associativity).

(** [try: body  except Exception as e: handler(e)] *)
Definition try_except_Exception {A} (body : M A) (handler : exc -> M A) : M A :=
  match body with
  | (evs, Raise e) =>
      if isinstance_Exception (exc_class e)
      then let (evs', r) := handler e in ((evs ++ evs')%list, r)
      else (evs, Raise e)
  | done => done
  end.

(** [type(v).__name__] *)
Definition type_name (v : value) : string :=
  match v with
  | VNone => "NoneType"
  | VBool _ => "bool"
  | VInt _ => "int"
  | VFloat _ => "float"
  | VStr _ => "str"
  | VList _ => "list"
  | VDict _ => "dict"
  | VTextContent _ _ => "TextContent"
  | VCoroutine _ => "coroutine"
  end.

(** The repair of lines 146-152 and 176-183: a string wrapped in brackets
    becomes the list of its comma-separated items, each stripped of
    whitespace and then of quotes. *)
Definition quote_chars : string := String PyStr.dquote "'".

Definition strip_item (item : string) : string :=
  PyStr.strip_chars quote_chars (PyStr.strip item).

Definition parse_list_string (v : string) : value :=
  let clean_list := PyStr.strip_chars "[]" v in
  if PyStr.is_empty clean_list then VList []
  else VList (map (fun item => VStr (strip_item item)) (PyStr.split "," clean_list)).

Definition is_list_string (v : string) : bool :=
  PyStr.startswith "[" v && PyStr.endswith "]" v.

(** Lines 174-186: the binding of one token in the general case. *)
Definition bind_token (v : value) : value :=
  match v with
  | VStr s => if is_list_string s then parse_list_string s else v
  | _ => v
  end.

(** Lines 141-165: the single token of [int_list_to_exponential_sum]. *)
Definition single_param_value (v : value) : M value :=
  tell (Log (SingleParamValue v)) ;;;
  match v with
  | VStr s =>
      if is_list_string s then
        let v' := parse_list_string s in
        tell (Log (ParsedListValue v')) ;;; ret v'
      else if PyStr.startswith "{" s && PyStr.contains (PyStr.quoted "numbers") s then
        match Json.loads s with
        | Return (VDict data) =>
            let v' := match PyDict.get data "numbers" with
                      | Some numbers => numbers
                      | None => VList []
                      end in
            tell (Log (ParsedJSONValue v')) ;;; ret v'
        | Return data =>
            raise (mkExc AttributeError
                     ("'" ++ type_name data ++ "' object has no attribute 'get'"))
        | Raise e =>
            match exc_class e with
            | JSONDecodeError => tell (Log (FailedToParseJSON e)) ;;; ret v
            | _ => raise e
            end
        end
      else ret v
  | _ => ret v
  end.

(** [for name, value in zip(param_names, params)] of lines 174-186. *)
Fixpoint bind_positional (param_names : list string) (params : list value)
                         (acc : arguments) : arguments :=
  match param_names, params with
  | name :: names, v :: vs => bind_positional names vs (PyDict.set acc name (bind_token v))
  | _, _ => acc
  end.

(** Lines 120-123: the dictionary case. *)
Fixpoint bind_named (func_name : string) (sig_parameters : list string)
                    (items : list (string * value)) (acc : arguments)
  : result arguments :=
  match items with
  | [] => Return acc
  | (name, v) :: rest =>
      if PyDict.mem name sig_parameters
      then bind_named func_name sig_parameters rest (PyDict.set acc name v)
      else Raise (mkExc ValueError
                        ("Unknown parameter " ++ name ++ " for " ++ func_name))
  end.

(** Lines 113-199: from the raw parameters to the keyword arguments, given
    the names of [sig.parameters]. *)
Definition normalize (func_name : string) (sig_parameters : list string)
                     (params : raw_params) : M arguments :=
  match params with
  | ParamDict d => lift (bind_named func_name sig_parameters d [])
  | ParamList l =>
      let param_names :=
        filter (fun name => negb (String.eqb name "self")) sig_parameters in
      match String.eqb func_name "int_list_to_exponential_sum", param_names with
      | true, [name] =>
          tell (Log SpecialHandling) ;;;
          tell (Log (RawParams l)) ;;;
          tell (Log (ParamCount (List.length l))) ;;;
          a <- (if 1 <? List.length l then
                  tell (Log CombiningParams) ;;; ret [(name, VList l)]
                else
                  match l with
                  | [] => raise (mkExc IndexError "list index out of range")
                  | v :: _ => v' <- single_param_value v ;; ret [(name, v')]
                  end) ;;
          tell (Log (FinalArgumentsSpecial a)) ;;; ret a
      | _, _ =>
          if negb (List.length l =? List.length param_names) then
            raise (mkExc ValueError
                     ("Expected " ++ PyStr.of_nat (List.length param_names)
                        ++ " parameters for " ++ func_name
                        ++ ", got " ++ PyStr.of_nat (List.length l)))
          else ret (bind_positional param_names l [])
      end
  end.

(** Lines 204-218: the call.  The [return] of line 215 belongs to the branch
    of the synchronous tools; after the branch of the coroutine functions
    control leaves the [try] statements and the function ends. *)
Definition execute (func_name : string) (t : tool) (a : arguments) : M value :=
  try_except_Exception
    (tell (Called func_name a) ;;;
     if iscoroutinefunction t then
       result <- lift (call t a) ;;
       ret VNone
     else
       maybe <- lift (call t a) ;;
       match maybe with
       | VCoroutine awaited => lift awaited
       | _ => ret maybe
       end)
    (fun e => tell (Log (ErrorWhileCallingTool func_name e)) ;;; raise e).

(** [Action.act] *)
Definition act (func_map : list (string * tool)) (func_name : string)
               (params : raw_params) : M value :=
  try_except_Exception
    (t <- match PyDict.get func_map func_name with
          | None =>
              tell (Log (AvailableTools (PyDict.keys func_map))) ;;;
              raise (mkExc ValueError ("Unknown tool: " ++ func_name))
          | Some t => ret t
          end ;;
     a <- normalize func_name (parameters t) params ;;
     tell (Log (FinalArguments a)) ;;;
     tell (Log (CallingTool func_name)) ;;;
     execute func_name t a)
    (fun e => tell (Log (ErrorInActMethod func_name e)) ;;; raise e).

(** The events of a run, its outcome, and the calls it made. *)
Definition events {A} (m : M A) : list event := fst m.
Definition outcome {A} (m : M A) : result A := snd m.

Definition calls {A} (m : M A) : list (string * arguments) :=
  flat_map (fun ev => match ev with Called f a => [(f, a)] | Log _ => [] end)
           (events m).

(** *** The tools *)

(** The binding of the keyword arguments of a static method with the one
    parameter [name]. *)
Definition bind_one (qualname name : string) (a : arguments) : result value :=
  match filter (fun k => negb (String.eqb k name)) (PyDict.keys a) with
  | k :: _ =>
      Raise (mkExc TypeError
               ("Action." ++ qualname ++ "() got an unexpected keyword argument '"
                  ++ k ++ "'"))
  | [] =>
      match PyDict.get a name with
      | Some v => Return v
      | None =>
          Raise (mkExc TypeError
                   ("Action." ++ qualname
                      ++ "() missing 1 required positional argument: '"
                      ++ name ++ "'"))
      end
  end.

(** [iter(v)]: the items a [for] loop over [v] visits. *)
Definition iterate (v : value) : result (list value) :=
  match v with
  | VStr s => Return (map (fun c => VStr (String c EmptyString)) (list_ascii_of_string s))
  | VList l => Return l
  | VDict d => Return (map (fun kv => VStr (fst kv)) d)
  | _ => Raise (mkExc TypeError ("'" ++ type_name v ++ "' object is not iterable"))
  end.

(** [ord(v)] *)
Definition ord (v : value) : result value :=
  match v with
  | VStr (String c EmptyString) => Return (VInt (Z.of_nat (nat_of_ascii c)))
  | VStr s =>
      Raise (mkExc TypeError
               ("ord() expected a character, but string of length "
                  ++ PyStr.of_nat (String.length s) ++ " found"))
  | _ =>
      Raise (mkExc TypeError
               ("ord() expected string of length 1, but " ++ type_name v ++ " found"))
  end.

Fixpoint map_result {A B} (f : A -> result B) (l : list A) : result (list B) :=
  match l with
  | [] => Return []
  | x :: rest =>
      bind (f x) (fun y => bind (map_result f rest) (fun ys => Return (y :: ys)))
  end.

(** [Action.strings_to_chars_to_int], lines 520-530. *)
Definition strings_to_chars_to_int (a : arguments) : result value :=
  bind (bind_one "strings_to_chars_to_int" "text" a) (fun text =>
  bind (iterate text) (fun chars =>
  bind (map_result ord chars) (fun codes => Return (VList codes)))).

(** [Action.show_reasoning], lines 728-751 (the definition in force: it
    replaces the one of lines 622-642).  What it prints is not recorded. *)
Definition show_reasoning (a : arguments) : result value :=
  bind (bind_one "show_reasoning" "steps" a) (fun steps =>
  match steps with
  | VStr _ => Return (VStr "Reasoning shown")
  | _ => bind (iterate steps) (fun _ => Return (VStr "Reasoning shown"))
  end).

(** [Action.send_email], lines 684-726, a coroutine function.  [smtp_send]
    is the outcome of the exchange with the mail server for the text. *)
Definition send_email (smtp_send : value -> result unit) (a : arguments)
  : result value :=
  bind (bind_one "send_email" "text" a) (fun text =>
  match smtp_send text with
  | Return _ =>
      Return (VDict [("content", VList [VTextContent "text" "Email sent successfully!"])])
  | Raise e =>
      if isinstance_Exception (exc_class e) then
        Return (VDict [("content",
                        VList [VTextContent "text" ("Error sending mail: " ++ exc_str e)])])
      else Raise e
  end).

Section ExponentialSum.

(** Lines 599-608: the conversion of the items with [int], [math.exp] and
    the float sum, which the embedding does not interpret. *)
Variable exp_sum : value -> result value.

(** Lines 558-568: the completion of a truncated JSON text. *)
Definition complete_json (int_list : string) : string :=
  if negb (PyStr.endswith "}" int_list) then
    if PyStr.contains (PyStr.quoted "numbers" ++ ": [") int_list && negb (PyStr.endswith "]}" int_list)
    then
      let open_brackets := PyStr.count "[" int_list in
      let close_brackets := PyStr.count "]" int_list in
      let open_braces := PyStr.count "{" int_list in
      let close_braces := PyStr.count "}" int_list in
      let missing_brackets := open_brackets - close_brackets in
      let missing_braces := open_braces - close_braces in
      int_list ++ PyStr.repeat_char "]" missing_brackets
               ++ PyStr.repeat_char "}" missing_braces
    else int_list
  else int_list.

(** Lines 548-597: the value of [int_list] before the calculation. *)
Definition parse_int_list (int_list : value) : result value :=
  match int_list with
  | VStr s =>
      if PyStr.startswith "{" s then
        let s := complete_json s in
        match Json.loads s with
        | Return (VDict data) =>
            match PyDict.get data "numbers" with
            | Some numbers => Return numbers
            | None => Return (VList [])
            end
        | Return data =>
            Raise (mkExc AttributeError
                     ("'" ++ type_name data ++ "' object has no attribute 'get'"))
        | Raise e =>
            match exc_class e with
            | JSONDecodeError =>
                Raise (mkExc ValueError
                         ("Failed to parse JSON string '" ++ s ++ "': " ++ exc_str e))
            | _ => Raise e
            end
        end
      else if is_list_string s then Return (parse_list_string s)
      else if PyStr.contains "," s then
        Return (VList (map (fun item => VStr (strip_item item)) (PyStr.split "," s)))
      else
        Raise (mkExc ValueError
                 ("String input must be in list format [x,y,z] or JSON format. Got: '"
                    ++ s ++ "'"))
  | _ => Return int_list
  end.

(** [Action.int_list_to_exponential_sum], lines 532-610. *)
Definition int_list_to_exponential_sum (a : arguments) : result value :=
  bind (bind_one "int_list_to_exponential_sum" "int_list" a) (fun int_list =>
  bind (parse_int_list int_list) exp_sum).

End ExponentialSum.

Section Evaluation.

(** The builtins the two tools rest on: [eval], [str] of the value computed,
    and the comparison [abs(float(actual) - float(expected)) < 1e-10] with
    its two conversions. *)
Variable py_eval : string -> result value.
Variable py_str : value -> result string.
Variable float_close : value -> value -> result bool.

(** [try: body  except Exception as e: return f"Error: {str(e)}"] *)
Definition or_error_message (body : result value) : result value :=
  match body with
  | Raise e =>
      if isinstance_Exception (exc_class e)
      then Return (VStr ("Error: " ++ exc_str e))
      else Raise e
  | done => done
  end.

(** [Action.calculate], lines 754-766 (the definition in force). *)
Definition calculate (expression : string) : result value :=
  or_error_message
    (bind (py_eval expression) (fun result =>
     bind (py_str result) (fun text => Return (VStr text)))).

(** [Action.verify], lines 768-786 (the definition in force). *)
Definition verify (expression : string) (expected : value) : result value :=
  or_error_message
    (bind (py_eval expression) (fun actual =>
     bind (float_close actual expected) (fun is_correct =>
     Return (VStr (if is_correct then "True" else "False"))))).

(** The exceptions that the body of each tool can meet for an input. *)
Definition raised_in_calculate (expression : string) (e : exc) : Prop :=
  py_eval expression = Raise e
  \/ exists v, py_eval expression = Return v /\ py_str v = Raise e.

Definition raised_in_verify (expression : string) (expected : value) (e : exc) : Prop :=
  py_eval expression = Raise e
  \/ exists v, py_eval expression = Return v /\ float_close v expected = Raise e.

End Evaluation.

(** The entries of [self.func_map] (lines 65-91) whose callables need nothing
    of the run-time environment but the answer of the mail server, in the
    order of the source. *)
Definition func_map (smtp_send : value -> result unit) : list (string * tool) :=
  [ ("strings_to_chars_to_int", mkTool ["text"] false strings_to_chars_to_int);
    ("show_reasoning", mkTool ["steps"] false show_reasoning);
    ("send_email", mkTool ["text"] true (send_email smtp_send)) ].

(** A mail server that accepts every message, and an exchange with the
    server that is interrupted from the keyboard. *)
Definition mail_accepted (text : value) : result unit := Return tt.
Definition mail_interrupted (text : value) : result unit :=
  Raise (mkExc KeyboardInterrupt EmptyString).

(** An exchange that the server closes: [smtplib] raises
    [SMTPServerDisconnected], which derives from [Exception]. *)
Definition mail_refused (text : value) : result unit :=
  Raise (mkExc (OtherException "SMTPServerDisconnected") "Connection unexpectedly closed").

(** The calculation of lines 599-608 where it needs no floating point: the
    sum of no item is the integer 0, and [math.exp] overflows on every item
    from 710 on.  The sample is meant for these lists only. *)
Definition exp_sum_sample (int_list : value) : result value :=
  match int_list with
  | VList [] => Return (VInt 0)
  | _ => Raise (mkExc (OtherException "OverflowError") "math range error")
  end.

(** A registry with the entry of [int_list_to_exponential_sum]. *)
Definition exponential_registry : list (string * tool) :=
  [ ("int_list_to_exponential_sum",
     mkTool ["int_list"] false (int_list_to_exponential_sum exp_sum_sample)) ].

(** [Action.fibonacci_numbers], lines 615-620, on the integer that line 614
    converts its argument to.  [fib_append] is one pass of the loop. *)
Definition fib_append (fib_sequence : list Z) : list Z :=
  (fib_sequence
     ++ [(List.last fib_sequence 0 + List.last (List.removelast fib_sequence) 0)%Z])%list.

Definition fibonacci_numbers (n : Z) : list Z :=
  if (n <=? 0)%Z then []
  else firstn (Z.to_nat n) (Nat.iter (Z.to_nat (n - 2)) fib_append [0%Z; 1%Z]).

(** The Fibonacci numbers, from 0 and 1. *)
Fixpoint fib_pair (k : nat) : Z * Z :=
  match k with
  | O => (0, 1)%Z
  | S k => let (a, b) := fib_pair k in (b, (a + b)%Z)
  end.

Definition fib (k : nat) : Z := fst (fib_pair k).

(** *** Vocabulary of the statements about [act] *)

(** The events of [act] once the tool is resolved and the arguments are
    normalized, up to the call itself. *)
Definition before_call (func_name : string) (evs : list event) (a : arguments)
  : list event :=
  (evs ++ [Log (FinalArguments a); Log (CallingTool func_name); Called func_name a])%list.

(** A fault of the tool's execution: the call raises, or a synchronous tool
    returns a coroutine whose awaiting raises. *)
Definition tool_raises (t : tool) (a : arguments) (e : exc) : Prop :=
  call t a = Raise e \/
  (iscoroutinefunction t = false /\ call t a = Return (VCoroutine (Raise e))).

(** The shape of a token ["[a, b, c]"]: between the brackets, items separated
    by commas; an item is a text, possibly between quote characters,
    possibly between white space.  The text is not empty, holds no comma, and
    neither starts nor ends with white space, a quote or a bracket. *)
Definition is_quote (c : ascii) : bool := PyStr.mem c quote_chars.
Definition is_bracket (c : ascii) : bool := PyStr.mem c "[]".
Definition is_comma (c : ascii) : bool := Ascii.eqb c ",".

Definition edge (c : ascii) : bool :=
  negb (PyStr.isspace c || is_quote c || is_bracket c || is_comma c).

Fixpoint all_chars (p : ascii -> bool) (s : string) : bool :=
  match s with
  | EmptyString => true
  | String c rest => p c && all_chars p rest
  end.

Definition first_is (p : ascii -> bool) (s : string) : bool :=
  match s with
  | EmptyString => false
  | String c _ => p c
  end.

Fixpoint last_is (p : ascii -> bool) (s : string) : bool :=
  match s with
  | EmptyString => false
  | String c EmptyString => p c
  | String _ rest => last_is p rest
  end.

Record item := mkItem {
  lead_space : string;
  lead_quotes : string;
  text : string;
  trail_quotes : string;
  trail_space : string
}.

Definition written (i : item) : string :=
  lead_space i ++ lead_quotes i ++ text i ++ trail_quotes i ++ trail_space i.

Definition well_formed (i : item) : bool :=
  all_chars PyStr.isspace (lead_space i) && all_chars PyStr.isspace (trail_space i)
  && all_chars is_quote (lead_quotes i) && all_chars is_quote (trail_quotes i)
  && all_chars (fun c => negb (is_comma c)) (text i)
  && first_is edge (text i) && last_is edge (text i).

(** [well_formed], property by property. *)
Record shaped (i : item) : Prop := {
  lead_space_ok : all_chars PyStr.isspace (lead_space i) = true;
  trail_space_ok : all_chars PyStr.isspace (trail_space i) = true;
  lead_quotes_ok : all_chars is_quote (lead_quotes i) = true;
  trail_quotes_ok : all_chars is_quote (trail_quotes i) = true;
  text_no_comma : all_chars (fun c => negb (is_comma c)) (text i) = true;
  text_first : first_is edge (text i) = true;
  text_last : last_is edge (text i) = true
}.

Definition list_token (items : list item) : string :=
  "[" ++ PyStr.join "," (map written items) ++ "]".

(** The text [s] followed by as many "]" as it has unmatched "[" and then by
    as many "}" as it has unmatched "{". *)
Definition with_closers (s : string) : string :=
  s ++ PyStr.repeat_char "]" (PyStr.count "[" s - PyStr.count "]" s)
    ++ PyStr.repeat_char "}" (PyStr.count "{" s - PyStr.count "}" s).

(** *** Sample inputs of the examples *)

(** The items of the token "[a, b, c]". *)
Definition items_abc : list item :=
  [ mkItem EmptyString EmptyString "a" EmptyString EmptyString;
    mkItem " " EmptyString "b" EmptyString EmptyString;
    mkItem " " EmptyString "c" EmptyString EmptyString ].

(** The items of a token with quotes of both kinds and white space on both
    sides of an item: the bracket, 'a', the second item b between double
    quotes and spaces, the third item c bare, the bracket. *)
Definition items_quoted : list item :=
  [ mkItem EmptyString "'" "a" "'" EmptyString;
    mkItem " " (String PyStr.dquote EmptyString) "b" (String PyStr.dquote EmptyString) " ";
    mkItem " " EmptyString "c" EmptyString EmptyString ].

(** The text of the example of the specification, cut after its last
    number, with and without the space that follows the colon. *)
Definition numbers_truncated : string := "{" ++ PyStr.quoted "numbers" ++ ": [1,2,3".
Definition numbers_truncated_tight : string := "{" ++ PyStr.quoted "numbers" ++ ":[1,2,3".
Definition numbers_complete_tight : string := "{" ++ PyStr.quoted "numbers" ++ ":[1,2,3]}".

(** The expression "1/0": its evaluation raises [ZeroDivisionError], so that
    neither the string form of a value nor the comparison is computed; the
    two functions that follow stand for them. *)
Definition eval_division_by_zero (expression : string) : result value :=
  Raise (mkExc ZeroDivisionError "division by zero").
Definition str_of_text (v : value) : result string :=
  match v with VStr s => Return s | _ => Return (type_name v) end.
Definition close_never (actual expected : value) : result bool := Return false.

(** An expression that ends the interpreter, such as
    "__import__('sys').exit()": its evaluation raises [SystemExit], whose
    string form is empty. *)
Definition eval_exits (expression : string) : result value :=
  Raise (mkExc SystemExit EmptyString).

(** The code points of a string, as [ord] gives them. *)
Definition code_points (s : string) : list value :=
  map (fun c => VInt (Z.of_nat (nat_of_ascii c))) (list_ascii_of_string s).

(** The characters that [complete_json] appends. *)
Definition is_closer (c : ascii) : bool := PyStr.mem c "]}".

(** The invocations among some events. *)
Definition calls_of (evs : list event) : list (string * arguments) :=
  flat_map (fun ev => match ev with Called f a => [(f, a)] | Log _ => [] end) evs.

(** The only events of a normalization are records of the log. *)
Definition is_log (ev : event) : bool :=
  match ev with Log _ => true | Called _ _ => false end.

End Action.

(** ** perception.py: the text of the model *)

Module Perception.

(** What [generate_with_timeout] hands back: nothing, or a response whose
    [text] is [None] or a string. *)
Inductive response :=
| NoResponse
| Response (text : option string).

(** [Perception.generate_decision_response], lines 51-73.  [use_client] tells
    whether a client is at hand (line 65), [generated] is the outcome of
    awaiting [generate_with_timeout] (line 69); what is logged is not
    recorded. *)
Definition generate_decision_response (use_client : bool) (generated : result response)
  : result string :=
  if negb use_client then Return EmptyString
  else
    bind generated (fun response =>
      match response with
      | NoResponse => Return EmptyString
      | Response None => Return EmptyString
      | Response (Some text) =>
          if PyStr.is_empty text then Return EmptyString
          else Return (PyStr.strip text)
      end).

End Perception.

(** ** The wire format *)

Module Protocol.

(** The line that asks for the tool [name] with the parameters [params]. *)
Definition function_call (name : string) (params : list string) : string :=
  "FUNCTION_CALL: " ++ PyStr.join "|" (name :: params).

Definition not_space (c : ascii) : bool := negb (PyStr.isspace c).

(** No white space at either end. *)
Definition trimmed (f : string) : bool :=
  PyStr.is_empty f || (Action.first_is not_space f && Action.last_is not_space f).

(** A field that can be written between separators on one line: no "|", no
    newline, no white space at either end. *)
Definition plain_field (f : string) : bool :=
  Action.all_chars (fun c => negb (Ascii.eqb c "|")) f
  && Action.all_chars (fun c => negb (Ascii.eqb c PyStr.newline)) f
  && trimmed f.

Definition one_line (line : string) : bool :=
  Action.all_chars (fun c => negb (Ascii.eqb c PyStr.newline)) line.

(** The test of line 23 on a line of the text. *)
Definition is_directive (line : string) : bool :=
  PyStr.startswith "FUNCTION_CALL:" (PyStr.strip line).

End Protocol.

(** ** main.py: the iteration loop *)

Module Main.

Definition max_iterations : nat := 10.

(** The entries appended to [iteration_response]; each constructor stands for
    one of the three formatted strings of the loop and keeps the values that
    the string is formatted from. *)
Inductive trace_entry :=
| CallRecord (n : nat) (func_name : string) (params : list string) (result : value)
    (* lines 223-226: "In the {n} iteration you called {func_name} with
       parameters {params} and the function returned {result_str}." *)
| FinalAnswerRecord (response_text : string)
    (* line 231: "FINAL_ANSWER received: {response_text}" *)
| ErrorRecord (n : nat) (e : exc).
    (* lines 236 and 245: "Error in iteration {n}: {str(e)}" *)

(** The globals of the module, and the events of the calls of [act].
    [last_response] keeps the value whose string form the code stores. *)
Record state := mkState {
  iteration : nat;
  last_response : option value;
  iteration_response : list trace_entry;
  dispatched : list Action.event
}.

(** [reset_state] *)
Definition reset_state : state := mkState 0 None [] [].

(** How control leaves one pass of the body of the [while] loop. *)
Inductive pass :=
| Next (st : state)                 (* line 241 reached *)
| BreakFinalAnswer (st : state)     (* the [break] of line 232 *)
| BreakError (st : state)           (* the [break] of line 237 or of line 246 *)
| Escapes (e : exc) (st : state).   (* an exception leaves the loop *)

(** How the loop ends. *)
Inductive stop :=
| ConditionFalse        (* [iteration < max_iterations] no longer holds *)
| FinalAnswer
| Failed
| Escaped (e : exc).

Section Loop.

(** [action.func_map], the answer of [perception.generate_decision_response]
    as a function of the trace that the prompt is built from, and the outcome
    of [json.dumps(facts, indent=2)] of line 170. *)
Variable func_map : list (string * Action.tool).
Variable generate_decision_response : list trace_entry -> result string.
Variable facts_str : result string.

(** [if func_name:] of line 196. *)
Definition truthy (func_name : option string) : option string :=
  match func_name with
  | Some name => if PyStr.is_empty name then None else Some name
  | None => None
  end.

Definition append (st : state) (entry : trace_entry) : state :=
  mkState (iteration st) (last_response st)
          (iteration_response st ++ [entry])%list (dispatched st).

(** Lines 167-246: one pass of the body of the loop. *)
Definition body (st : state) : pass :=
  match (match last_response st with None => facts_str | Some _ => Return EmptyString end) with
  | Raise e => Escapes e st
  | Return _ =>
      match generate_decision_response (iteration_response st) with
      | Raise e =>
          if isinstance_Exception (exc_class e)
          then BreakError (append st (ErrorRecord (iteration st + 1) e))
          else Escapes e st
      | Return response_text =>
          let (func_name, params) := Decision.get_decision response_text in
          match truthy func_name with
          | Some name =>
              let params := match params with Some l => l | None => [] end in
              let run := Action.act func_map name (Action.ParamList (map VStr params)) in
              let st := mkState (iteration st) (last_response st) (iteration_response st)
                                (dispatched st ++ Action.events run)%list in
              match Action.outcome run with
              | Return result =>
                  Next (mkState (iteration st + 1) (Some result)
                          (iteration_response st
                             ++ [CallRecord (iteration st + 1) name params result])%list
                          (dispatched st))
              | Raise e =>
                  if isinstance_Exception (exc_class e)
                  then BreakError (append st (ErrorRecord (iteration st + 1) e))
                  else Escapes e st
              end
          | None => BreakFinalAnswer (append st (FinalAnswerRecord response_text))
          end
      end
  end.

(** The loop of line 166.  [fuel] bounds the passes for the recursion; the
    loop returns [None] when the bound is reached with the condition still
    true.  The handler of line 247 and the reset of line 250 come after the
    loop. *)
Fixpoint while (fuel : nat) (st : state) : option (state * stop) :=
  if iteration st <? max_iterations then
    match fuel with
    | O => None
    | S fuel =>
        match body st with
        | Next st' => while fuel st'
        | BreakFinalAnswer st' => Some (st', FinalAnswer)
        | BreakError st' => Some (st', Failed)
        | Escapes e st' => Some (st', Escaped e)
        end
    end
  else Some (st, ConditionFalse).

(** The number of passes of the body made by the loop. *)
Fixpoint passes (fuel : nat) (st : state) : nat :=
  if iteration st <? max_iterations then
    match fuel with
    | O => 0
    | S fuel =>
        match body st with
        | Next st' => S (passes fuel st')
        | _ => 1
        end
    end
  else 0.

End Loop.

(** Vocabulary of the statements about the loop. *)
Definition is_call (entry : trace_entry) : bool :=
  match entry with CallRecord _ _ _ _ => true | _ => false end.

(** The invariant of the loop: every entry of the trace records a call, and
    there is one entry for each pass completed. *)
Definition counted (st : state) : Prop :=
  List.length (iteration_response st) = iteration st
  /\ forallb is_call (iteration_response st) = true.

(** What the state shows when the loop ends in the way [how]. *)
Definition shown (how : stop) (st : state) : Prop :=
  match how with
  | ConditionFalse =>
      iteration st = max_iterations
      /\ List.length (iteration_response st) = max_iterations
      /\ forallb is_call (iteration_response st) = true
  | FinalAnswer =>
      iteration st < max_iterations
      /\ exists calls text,
           iteration_response st = (calls ++ [FinalAnswerRecord text])%list
           /\ forallb is_call calls = true
  | Failed =>
      iteration st < max_iterations
      /\ exists calls n e,
           iteration_response st = (calls ++ [ErrorRecord n e])%list
           /\ forallb is_call calls = true
  | Escaped _ => iteration st < max_iterations
  end.



(** The numbers that the records of calls carry, in the order of the trace. *)
Definition call_numbers (trace : list trace_entry) : list nat :=
  flat_map (fun entry => match entry with CallRecord n _ _ _ => [n] | _ => [] end) trace.

(** The invocations of registered callables made so far. *)
Definition invocations (st : state) : list (string * Action.arguments) :=
  flat_map (fun ev => match ev with Action.Called f a => [(f, a)] | Action.Log _ => [] end)
           (dispatched st).

(** Two models: one that always names a tool that is not registered, one
    that always writes a directive without a tool name. *)
Definition model_names_unknown_tool (trace : list trace_entry) : result string :=
  Return "FUNCTION_CALL: open_paint".
Definition model_names_no_tool (trace : list trace_entry) : result string :=
  Return "FUNCTION_CALL: |INDIA".

End Main.

(** * Properties *)

(** ** Sample evaluations *)

Example get_decision_india :
  Decision.get_decision "FUNCTION_CALL: strings_to_chars_to_int|INDIA"
  = (Some "strings_to_chars_to_int", Some ["INDIA"]).
Proof. reflexivity. Qed.

Example get_decision_first_match :
  Decision.get_decision
    ("thinking" ++ String PyStr.newline "  FUNCTION_CALL: add|1|2 "
       ++ String PyStr.newline "FUNCTION_CALL: sub|3")
  = (Some "add", Some ["1"; "2"]).
Proof. reflexivity. Qed.

Example loads_numbers :
  Json.loads ("{" ++ PyStr.quoted "numbers" ++ ": [73, 78, 68, 73, 65]}")
  = Return (VDict [("numbers", VList [VInt 73; VInt 78; VInt 68; VInt 73; VInt 65])]).
Proof. reflexivity. Qed.

Example loads_truncated :
  Json.loads ("{" ++ PyStr.quoted "numbers" ++ ":[1,2,3")
  = Raise (mkExc JSONDecodeError "Expecting ',' delimiter: line 1 column 18 (char 17)").
Proof. reflexivity. Qed.

(** ** The dispatcher: resolution and execution *)

Section Dispatcher.

Import Action.

Variable func_map : list (string * tool).

Lemma act_resolved (func_name : string) (t : tool) (params : raw_params)
      (evs : list event) (a : arguments) :
  PyDict.get func_map func_name = Some t ->
  normalize func_name (parameters t) params = (evs, Return a) ->
  act func_map func_name params
  = try_except_Exception
      (let (evs', r) := execute func_name t a in
       ((evs ++ [Log (FinalArguments a); Log (CallingTool func_name)] ++ evs')%list, r))
      (fun e => tell (Log (ErrorInActMethod func_name e)) ;;; raise e).
Proof.
  intros Hget Hnorm. unfold act. rewrite Hget. cbn [ret mbind].
  rewrite Hnorm. cbn [mbind tell app].
  destruct (execute func_name t a) as [evs' r]. cbn.
  destruct r; reflexivity.
Qed.

(** C7.  A tool name that is not a key of the registry makes [act] fail with
    the [ValueError] "Unknown tool: <name>"; the run logs the available names
    and the error, and no registered callable is invoked. *)
Theorem act_unknown_tool (func_name : string) (params : raw_params) :
  PyDict.get func_map func_name = None ->
  act func_map func_name params
  = ([Log (AvailableTools (PyDict.keys func_map));
      Log (ErrorInActMethod func_name (mkExc ValueError ("Unknown tool: " ++ func_name)))],
     Raise (mkExc ValueError ("Unknown tool: " ++ func_name)))
  /\ calls (act func_map func_name params) = [].
Proof.
  intros Hget. unfold calls, events, act. rewrite Hget. cbn. split; reflexivity.
Qed.

(** The synchronous path: the value the callable returns is handed to the
    caller, after awaiting it when it is a coroutine. *)
Lemma act_synchronous_tool (func_name : string) (t : tool) (params : raw_params)
      (evs : list event) (a : arguments) (v : value) :
  PyDict.get func_map func_name = Some t ->
  normalize func_name (parameters t) params = (evs, Return a) ->
  iscoroutinefunction t = false ->
  (call t a = Return v /\ (forall r, v <> VCoroutine r)) \/
  call t a = Return (VCoroutine (Return v)) ->
  act func_map func_name params = (before_call func_name evs a, Return v).
Proof.
  intros Hget Hnorm Hsync Hcall.
  rewrite (act_resolved _ _ _ _ _ Hget Hnorm).
  unfold execute, before_call. rewrite Hsync.
  destruct Hcall as [[Hc Hv] | Hc]; rewrite Hc; cbn.
  - destruct v; try reflexivity. exfalso. eapply Hv. reflexivity.
  - reflexivity.
Qed.

(** The path of the coroutine functions: the awaited value is dropped and the
    caller receives [None]. *)
Lemma act_coroutine_function (func_name : string) (t : tool) (params : raw_params)
      (evs : list event) (a : arguments) (v : value) :
  PyDict.get func_map func_name = Some t ->
  normalize func_name (parameters t) params = (evs, Return a) ->
  iscoroutinefunction t = true ->
  call t a = Return v ->
  act func_map func_name params = (before_call func_name evs a, Return VNone).
Proof.
  intros Hget Hnorm Hasync Hcall.
  rewrite (act_resolved _ _ _ _ _ Hget Hnorm).
  unfold execute, before_call. rewrite Hasync, Hcall. reflexivity.
Qed.

(** C5, as the code has it.  When the execution of the resolved tool raises
    an exception [e] deriving from [Exception], [act] raises that same
    exception: same class, same text, no wrapping.  Before that it has logged
    the arguments and the tool name, then the error twice, each time with the
    tool name. *)
Theorem act_tool_fault (func_name : string) (t : tool) (params : raw_params)
      (evs : list event) (a : arguments) (e : exc) :
  PyDict.get func_map func_name = Some t ->
  normalize func_name (parameters t) params = (evs, Return a) ->
  tool_raises t a e ->
  isinstance_Exception (exc_class e) = true ->
  act func_map func_name params
  = ((before_call func_name evs a
        ++ [Log (ErrorWhileCallingTool func_name e);
            Log (ErrorInActMethod func_name e)])%list,
     Raise e).
Proof.
  intros Hget Hnorm Hraises Hexc.
  rewrite (act_resolved _ _ _ _ _ Hget Hnorm).
  unfold execute, before_call.
  destruct Hraises as [Hc | [Hsync Hc]].
  - destruct (iscoroutinefunction t); rewrite Hc; cbn; rewrite Hexc; cbn;
      rewrite Hexc; cbn; rewrite <- !app_assoc; reflexivity.
  - rewrite Hsync, Hc. cbn. rewrite Hexc. cbn. rewrite Hexc. cbn.
    rewrite <- !app_assoc. reflexivity.
Qed.

End Dispatcher.

(** ** Facts about the string primitives *)

Module PyStrFacts.

Import PyStr.

Lemma append_empty_r (s : string) : s ++ EmptyString = s.
Proof. induction s as [|c s IH]; cbn; [reflexivity | now rewrite IH]. Qed.

Lemma append_assoc (a b c : string) : (a ++ b) ++ c = a ++ b ++ c.
Proof. induction a as [|x a IH]; cbn; [reflexivity | now rewrite IH]. Qed.

Lemma prefix_append (p s t : string) :
  String.prefix p s = true -> String.prefix p (s ++ t) = true.
Proof.
  revert s. induction p as [|c p IH]; intros s H.
  - destruct (s ++ t); reflexivity.
  - destruct s as [|d s]; cbn in *; [discriminate|].
    destruct (ascii_dec c d); [apply IH; exact H | discriminate].
Qed.

Lemma contains_append (p s t : string) :
  contains p s = true -> contains p (s ++ t) = true.
Proof.
  induction s as [|c s IH]; intros H.
  - cbn in H. rewrite orb_false_r in H.
    destruct p; [destruct t; reflexivity | discriminate].
  - cbn [contains append] in *. apply orb_true_iff in H. apply orb_true_iff.
    destruct H as [H | H].
    + left. apply (prefix_append p (String c s) t H).
    + right. apply IH, H.
Qed.

Lemma endswith_append (p s : string) : endswith p (s ++ p) = true.
Proof.
  induction s as [|c s IH]; cbn [append].
  - destruct p; [reflexivity|]. cbn [endswith]. rewrite String.eqb_refl. reflexivity.
  - cbn [endswith]. rewrite IH. apply orb_true_r.
Qed.

Lemma endswith_tail (c : ascii) (p s : string) :
  endswith (String c p) s = true -> endswith p s = true.
Proof.
  induction s as [|d s IH]; cbn [endswith]; intros H.
  - rewrite orb_false_r in H. discriminate.
  - apply orb_true_iff in H. destruct H as [H | H].
    + apply String.eqb_eq in H. injection H as _ ->.
      destruct s; cbn [endswith]; rewrite String.eqb_refl; rewrite ?orb_true_r;
        reflexivity.
    + rewrite (IH H). apply orb_true_r.
Qed.

Lemma count_append (c : ascii) (s t : string) :
  count c (s ++ t) = count c s + count c t.
Proof. induction s as [|d s IH]; cbn; [reflexivity | rewrite IH; lia]. Qed.

Lemma count_repeat_same (c : ascii) (n : nat) : count c (repeat_char c n) = n.
Proof. induction n as [|n IH]; cbn; [reflexivity|]. rewrite Ascii.eqb_refl, IH. reflexivity. Qed.

Lemma count_repeat_other (c d : ascii) (n : nat) :
  Ascii.eqb d c = false -> count c (repeat_char d n) = 0.
Proof. intros H. induction n as [|n IH]; cbn; [reflexivity|]. rewrite H, IH. reflexivity. Qed.

Section Strip.
Variable p : ascii -> bool.

Lemma lstrip_keep (s : string) :
  Action.first_is (fun c => negb (p c)) s = true -> lstrip_by p s = s.
Proof.
  destruct s as [|c s]; cbn; [discriminate|].
  intros H. apply negb_true_iff in H. rewrite H. reflexivity.
Qed.

Lemma lstrip_append_all (w s : string) :
  Action.all_chars p w = true -> lstrip_by p (w ++ s) = lstrip_by p s.
Proof.
  induction w as [|c w IH]; cbn; [reflexivity|].
  intros H. apply andb_true_iff in H. destruct H as [Hc Hw].
  rewrite Hc. apply IH, Hw.
Qed.

Lemma rstrip_all (w : string) :
  Action.all_chars p w = true -> rstrip_by p w = EmptyString.
Proof.
  induction w as [|c w IH]; cbn; [reflexivity|].
  intros H. apply andb_true_iff in H. destruct H as [Hc Hw].
  rewrite (IH Hw), Hc. reflexivity.
Qed.

Lemma rstrip_keep (s : string) :
  Action.last_is (fun c => negb (p c)) s = true -> rstrip_by p s = s.
Proof.
  induction s as [|c s IH]; [discriminate|].
  destruct s as [|d s].
  - cbn. intros H. apply negb_true_iff in H. rewrite H. reflexivity.
  - intros H. change (Action.last_is (fun c => negb (p c)) (String d s) = true) in H.
    specialize (IH H).
    change (rstrip_by p (String c (String d s)))
      with (let r := rstrip_by p (String d s) in
            if is_empty r && p c then EmptyString else String c r).
    rewrite IH. reflexivity.
Qed.

Lemma rstrip_append_all (s w : string) :
  Action.all_chars p w = true ->
  Action.last_is (fun c => negb (p c)) s = true ->
  rstrip_by p (s ++ w) = s.
Proof.
  intros Hw. induction s as [|c s IH]; [discriminate|].
  destruct s as [|d s].
  - cbn. intros H. apply negb_true_iff in H. rewrite (rstrip_all w Hw), H. reflexivity.
  - intros H. change (Action.last_is (fun c => negb (p c)) (String d s) = true) in H.
    specialize (IH H).
    change (rstrip_by p (String c (String d s) ++ w))
      with (let r := rstrip_by p (String d s ++ w) in
            if is_empty r && p c then EmptyString else String c r).
    rewrite IH. reflexivity.
Qed.

Lemma first_is_append (q : ascii -> bool) (s t : string) :
  Action.first_is q s = true -> Action.first_is q (s ++ t) = true.
Proof. destruct s; cbn; [discriminate | trivial]. Qed.

(** Stripping removes a padding made of stripped characters around a text
    that neither starts nor ends with one. *)
Lemma strip_padding (l s r : string) :
  Action.all_chars p l = true -> Action.all_chars p r = true ->
  Action.first_is (fun c => negb (p c)) s = true ->
  Action.last_is (fun c => negb (p c)) s = true ->
  strip_by p (l ++ s ++ r) = s.
Proof.
  intros Hl Hr Hf Hlast. unfold strip_by.
  rewrite (lstrip_append_all l _ Hl).
  rewrite (lstrip_keep (s ++ r) (first_is_append _ s r Hf)).
  apply rstrip_append_all; assumption.
Qed.

End Strip.

Lemma split_ne_append (sep : ascii) (x s : string) :
  count sep x = 0 ->
  split_ne sep (x ++ s) = (x ++ fst (split_ne sep s), snd (split_ne sep s)).
Proof.
  induction x as [|c x IH]; intros H.
  - cbn. destruct (split_ne sep s); reflexivity.
  - cbn in H. destruct (Ascii.eqb c sep) eqn:E; [discriminate|].
    cbn [append split_ne]. rewrite (IH H), E. reflexivity.
Qed.

Lemma split_join (sep : ascii) (x : string) (rest : list string) :
  Forall (fun r => count sep r = 0) (x :: rest) ->
  split sep (join (String sep EmptyString) (x :: rest)) = x :: rest.
Proof.
  revert x. induction rest as [|y rest IH]; intros x H.
  - inversion H as [|? ? Hx _]; subst. cbn [join]. unfold split.
    rewrite <- (append_empty_r x) at 1. rewrite (split_ne_append sep x EmptyString Hx).
    cbn. rewrite append_empty_r. reflexivity.
  - inversion H as [|? ? Hx Hrest]; subst.
    change (join (String sep EmptyString) (x :: y :: rest))
      with (x ++ String sep (join (String sep EmptyString) (y :: rest))).
    unfold split. rewrite (split_ne_append sep x _ Hx).
    specialize (IH y Hrest). unfold split in IH.
    cbn [split_ne]. destruct (split_ne sep (join (String sep EmptyString) (y :: rest))) as [h t].
    rewrite Ascii.eqb_refl. cbn. rewrite append_empty_r. rewrite IH. reflexivity.
Qed.

End PyStrFacts.

(** ** The argument normalizer: list tokens *)

Module ListTokens.

Import Action PyStrFacts.

Lemma space_classes (c : ascii) :
  PyStr.isspace c = true -> is_quote c = false /\ is_bracket c = false /\ is_comma c = false.
Proof.
  destruct c as [[] [] [] [] [] [] [] []]; cbn; intros H; try discriminate H;
    repeat split; reflexivity.
Qed.

Lemma quote_classes (c : ascii) :
  is_quote c = true -> PyStr.isspace c = false /\ is_bracket c = false /\ is_comma c = false.
Proof.
  destruct c as [[] [] [] [] [] [] [] []]; cbn; intros H; try discriminate H;
    repeat split; reflexivity.
Qed.

Lemma edge_classes (c : ascii) :
  edge c = true ->
  PyStr.isspace c = false /\ is_quote c = false /\ is_bracket c = false
  /\ is_comma c = false.
Proof.
  unfold edge. intros H. apply negb_true_iff in H.
  apply orb_false_iff in H. destruct H as [H Hcomma].
  apply orb_false_iff in H. destruct H as [H Hbracket].
  apply orb_false_iff in H. destruct H as [Hspace Hquote].
  repeat split; assumption.
Qed.

Lemma first_is_weaken (q r : ascii -> bool) (s : string) :
  (forall c, q c = true -> r c = true) ->
  first_is q s = true -> first_is r s = true.
Proof. intros Hqr. destruct s; cbn; [trivial | apply Hqr]. Qed.

Lemma last_is_weaken (q r : ascii -> bool) (s : string) :
  (forall c, q c = true -> r c = true) ->
  last_is q s = true -> last_is r s = true.
Proof.
  intros Hqr. induction s as [|c s IH]; [trivial|].
  destruct s; [apply Hqr | exact IH].
Qed.

Lemma all_chars_weaken (q r : ascii -> bool) (s : string) :
  (forall c, q c = true -> r c = true) ->
  all_chars q s = true -> all_chars r s = true.
Proof.
  intros Hqr. induction s as [|c s IH]; cbn; [trivial|].
  intros H. apply andb_true_iff in H. destruct H as [Hc Hs].
  rewrite (Hqr c Hc), (IH Hs). reflexivity.
Qed.

(** A padding in front of a text does not change how the whole starts when
    the padding characters satisfy the property too. *)
Lemma first_is_padded (r : ascii -> bool) (l s : string) :
  all_chars r l = true -> first_is r s = true -> first_is r (l ++ s) = true.
Proof.
  destruct l as [|c l]; cbn; [trivial|].
  intros H _. apply andb_true_iff in H. apply H.
Qed.

Lemma last_is_append_l (r : ascii -> bool) (l s : string) :
  last_is r s = true -> last_is r (l ++ s) = true.
Proof.
  intros H. induction l as [|c l IH]; [exact H|].
  cbn [append]. destruct (l ++ s) eqn:E; [|exact IH].
  destruct l; cbn in E; [subst s|]; discriminate.
Qed.

Lemma last_is_padded (r : ascii -> bool) (s t : string) :
  all_chars r t = true -> last_is r s = true -> last_is r (s ++ t) = true.
Proof.
  intros Ht. induction s as [|c s IH]; [discriminate|].
  intros H. destruct s as [|d s].
  - cbn [append]. destruct t as [|e t]; [exact H|].
    clear IH H. revert e Ht. induction t as [|f t IHt]; intros e Ht.
    + cbn in *. rewrite andb_true_r in Ht. exact Ht.
    + cbn in Ht. apply andb_true_iff in Ht. destruct Ht as [_ Ht].
      apply (IHt f). exact Ht.
  - apply IH. exact H.
Qed.

Lemma count_none (sep : ascii) (s : string) :
  all_chars (fun c => negb (Ascii.eqb c sep)) s = true -> PyStr.count sep s = 0.
Proof.
  induction s as [|c s IH]; cbn; [trivial|].
  intros H. apply andb_true_iff in H. destruct H as [Hc Hs].
  apply negb_true_iff in Hc. rewrite Hc, (IH Hs). reflexivity.
Qed.

Lemma well_formed_shaped (i : item) : well_formed i = true -> shaped i.
Proof.
  unfold well_formed. intros H.
  repeat (apply andb_true_iff in H; destruct H as [H ?]).
  constructor; assumption.
Qed.

Section Item.
Variable i : item.
Hypothesis Hi : shaped i.

Lemma quoted_first_not_space :
  first_is (fun c => negb (PyStr.isspace c)) (lead_quotes i ++ text i ++ trail_quotes i) = true.
Proof.
  apply first_is_padded.
  - apply (all_chars_weaken is_quote); [|apply Hi].
    intros c Hc. cbn beta. now rewrite (proj1 (quote_classes c Hc)).
  - apply first_is_append, (first_is_weaken edge); [|apply Hi].
    intros c Hc. cbn beta. now rewrite (proj1 (edge_classes c Hc)).
Qed.

Lemma quoted_last_not_space :
  last_is (fun c => negb (PyStr.isspace c)) (lead_quotes i ++ text i ++ trail_quotes i) = true.
Proof.
  apply last_is_append_l, last_is_padded.
  - apply (all_chars_weaken is_quote); [|apply Hi].
    intros c Hc. cbn beta. now rewrite (proj1 (quote_classes c Hc)).
  - apply (last_is_weaken edge); [|apply Hi].
    intros c Hc. cbn beta. now rewrite (proj1 (edge_classes c Hc)).
Qed.

(** Stripping the white space and then the quotes recovers the text of a
    written item. *)
Lemma strip_item_written : strip_item (written i) = text i.
Proof.
  unfold strip_item, written, PyStr.strip, PyStr.strip_chars.
  replace (lead_space i ++ lead_quotes i ++ text i ++ trail_quotes i ++ trail_space i)
    with (lead_space i ++ (lead_quotes i ++ text i ++ trail_quotes i) ++ trail_space i)
    by (now rewrite !append_assoc).
  rewrite (strip_padding PyStr.isspace);
    [ | apply Hi | apply Hi | apply quoted_first_not_space | apply quoted_last_not_space ].
  apply (strip_padding (fun c => PyStr.mem c quote_chars)); try apply Hi.
  - apply (first_is_weaken edge); [|apply Hi].
    intros c Hc. destruct (edge_classes c Hc) as (_ & Hq & _).
    unfold is_quote in Hq. now rewrite Hq.
  - apply (last_is_weaken edge); [|apply Hi].
    intros c Hc. destruct (edge_classes c Hc) as (_ & Hq & _).
    unfold is_quote in Hq. now rewrite Hq.
Qed.

Lemma written_no_comma : PyStr.count "," (written i) = 0.
Proof.
  unfold written. rewrite !count_append.
  rewrite (count_none "," (lead_space i)), (count_none "," (lead_quotes i)),
    (count_none "," (text i)), (count_none "," (trail_quotes i)),
    (count_none "," (trail_space i)); try reflexivity.
  - apply (all_chars_weaken PyStr.isspace); [|apply Hi].
    intros c Hc. destruct (space_classes c Hc) as (_ & _ & H). unfold is_comma in H.
    now rewrite H.
  - apply (all_chars_weaken is_quote); [|apply Hi].
    intros c Hc. destruct (quote_classes c Hc) as (_ & _ & H). unfold is_comma in H.
    now rewrite H.
  - apply Hi.
  - apply (all_chars_weaken is_quote); [|apply Hi].
    intros c Hc. destruct (quote_classes c Hc) as (_ & _ & H). unfold is_comma in H.
    now rewrite H.
  - apply (all_chars_weaken PyStr.isspace); [|apply Hi].
    intros c Hc. destruct (space_classes c Hc) as (_ & _ & H). unfold is_comma in H.
    now rewrite H.
Qed.

Lemma written_first_not_bracket : first_is (fun c => negb (is_bracket c)) (written i) = true.
Proof.
  unfold written. apply first_is_padded.
  - apply (all_chars_weaken PyStr.isspace); [|apply Hi].
    intros c Hc. destruct (space_classes c Hc) as (_ & H & _). now rewrite H.
  - apply first_is_padded.
    + apply (all_chars_weaken is_quote); [|apply Hi].
      intros c Hc. destruct (quote_classes c Hc) as (_ & H & _). cbn beta.
      now rewrite H.
    + apply first_is_append, (first_is_weaken edge); [|apply Hi].
      intros c Hc. destruct (edge_classes c Hc) as (_ & _ & H & _). cbn beta.
      now rewrite H.
Qed.

Lemma written_last_not_bracket : last_is (fun c => negb (is_bracket c)) (written i) = true.
Proof.
  unfold written. apply last_is_append_l, last_is_append_l.
  rewrite <- append_assoc. apply last_is_padded.
  - apply (all_chars_weaken PyStr.isspace); [|apply Hi].
    intros c Hc. destruct (space_classes c Hc) as (_ & H & _). now rewrite H.
  - apply last_is_padded.
    + apply (all_chars_weaken is_quote); [|apply Hi].
      intros c Hc. destruct (quote_classes c Hc) as (_ & H & _). cbn beta.
      now rewrite H.
    + apply (last_is_weaken edge); [|apply Hi].
      intros c Hc. destruct (edge_classes c Hc) as (_ & _ & H & _). cbn beta.
      now rewrite H.
Qed.

End Item.

End ListTokens.

(** ** The argument normalizer: binding *)

Section Normalizer.

Import Action PyStrFacts ListTokens.

Lemma first_is_join (r : ascii -> bool) (sep x : string) (rest : list string) :
  first_is r x = true -> first_is r (PyStr.join sep (x :: rest)) = true.
Proof.
  intros H. destruct rest; [exact H|].
  change (first_is r (x ++ sep ++ PyStr.join sep (s :: rest)) = true).
  apply first_is_append, H.
Qed.

Lemma last_is_join (r : ascii -> bool) (sep x : string) (rest : list string) :
  Forall (fun s => last_is r s = true) (x :: rest) ->
  last_is r (PyStr.join sep (x :: rest)) = true.
Proof.
  revert x. induction rest as [|y rest IH]; intros x H.
  - inversion H; subst. assumption.
  - inversion H as [|? ? _ Hrest]; subst.
    change (last_is r (x ++ sep ++ PyStr.join sep (y :: rest)) = true).
    apply last_is_append_l, last_is_append_l, IH, Hrest.
Qed.

Lemma is_list_string_token (items : list item) :
  is_list_string (list_token items) = true.
Proof.
  unfold is_list_string, list_token. apply andb_true_iff. split.
  - unfold PyStr.startswith. cbn.
    destruct (PyStr.join "," (map written items) ++ "]"); reflexivity.
  - change ("[" ++ PyStr.join "," (map written items) ++ "]")
      with (String "[" (PyStr.join "," (map written items) ++ "]")).
    cbn [PyStr.endswith]. rewrite (endswith_append "]"). apply orb_true_r.
Qed.

(** The items of a list token, as lines 148-152 and 179-183 compute them. *)
Lemma parse_list_token (items : list item) :
  Forall shaped items ->
  parse_list_string (list_token items) = VList (map (fun i => VStr (text i)) items).
Proof.
  intros Hitems. unfold parse_list_string, list_token.
  destruct items as [|i items]; [reflexivity|].
  set (body := PyStr.join "," (map written (i :: items))).
  assert (Hstrip : PyStr.strip_chars "[]" ("[" ++ body ++ "]") = body).
  { apply (strip_padding (fun c => PyStr.mem c "[]") "[" body "]");
      try reflexivity; unfold body; cbn [map].
    - apply first_is_join, written_first_not_bracket.
      inversion Hitems; assumption.
    - apply last_is_join.
      change (written i :: map written items) with (map written (i :: items)).
      apply Forall_map. eapply Forall_impl; [|exact Hitems].
      intros j Hj. apply written_last_not_bracket, Hj. }
  rewrite Hstrip.
  assert (Hne : PyStr.is_empty body = false).
  { assert (H : first_is (fun _ => true) body = true).
    { unfold body. cbn [map]. apply first_is_join.
      apply (first_is_weaken (fun c => negb (is_bracket c))); [trivial|].
      apply written_first_not_bracket. inversion Hitems; assumption. }
    destruct body; [discriminate H | reflexivity]. }
  rewrite Hne. unfold body. cbn [map].
  rewrite (split_join "," (written i) (map written items)).
  - f_equal. change (written i :: map written items) with (map written (i :: items)).
    rewrite map_map.
    change (VStr (text i) :: map (fun i0 => VStr (text i0)) items)
      with (map (fun i0 => VStr (text i0)) (i :: items)).
    apply map_ext_in. intros j Hj.
    rewrite strip_item_written; [reflexivity|].
    rewrite Forall_forall in Hitems. apply Hitems, Hj.
  - change (written i :: map written items) with (map written (i :: items)).
    apply Forall_map. eapply Forall_impl; [|exact Hitems].
    intros j Hj. apply written_no_comma, Hj.
Qed.

(** The single token of a tool with one parameter. *)
Lemma normalize_one_token (func_name : string) (sig_parameters : list string)
      (name : string) (v : value) :
  filter (fun n => negb (String.eqb n "self")) sig_parameters = [name] ->
  String.eqb func_name "int_list_to_exponential_sum" = false ->
  normalize func_name sig_parameters (ParamList [v]) = ([], Return [(name, bind_token v)]).
Proof. intros Hsig Hname. unfold normalize. rewrite Hsig, Hname. reflexivity. Qed.

Lemma normalize_one_list_string (sig_parameters : list string) (name s : string) :
  filter (fun n => negb (String.eqb n "self")) sig_parameters = [name] ->
  is_list_string s = true ->
  outcome (normalize "int_list_to_exponential_sum" sig_parameters (ParamList [VStr s]))
  = Return [(name, parse_list_string s)].
Proof.
  intros Hsig Hs. unfold outcome, normalize. rewrite Hsig.
  unfold single_param_value. rewrite Hs. reflexivity.
Qed.

Lemma bind_positional_fresh (names : list string) (tokens : list value)
      (acc : arguments) :
  List.length tokens = List.length names ->
  NoDup (PyDict.keys acc ++ names)%list ->
  bind_positional names tokens acc
  = (acc ++ combine names (map bind_token tokens))%list.
Proof.
  revert tokens acc. induction names as [|n names IH]; intros tokens acc Hlen Hnodup.
  - destruct tokens; cbn; now rewrite app_nil_r.
  - destruct tokens as [|v tokens]; [discriminate|].
    cbn [bind_positional map combine].
    assert (Hfresh : PyDict.set acc n (bind_token v) = (acc ++ [(n, bind_token v)])%list).
    { clear IH. induction acc as [|[k w] acc IHacc]; [reflexivity|].
      cbn in *. destruct (String.eqb n k) eqn:E.
      - apply String.eqb_eq in E. subst k. inversion Hnodup as [|? ? Hnotin _]; subst.
        exfalso. apply Hnotin. apply in_or_app. right. now left.
      - rewrite IHacc; [reflexivity|]. now inversion Hnodup. }
    rewrite Hfresh, IH.
    + now rewrite <- app_assoc.
    + cbn in Hlen. lia.
    + unfold PyDict.keys in *. rewrite map_app, <- app_assoc. exact Hnodup.
Qed.

(** The general case of lines 169-186: each token is bound, repaired, to the
    parameter of its position. *)
Lemma positional_tokens_bound (func_name : string) (sig_parameters : list string)
      (tokens : list value) :
  String.eqb func_name "int_list_to_exponential_sum" = false ->
  NoDup (filter (fun n => negb (String.eqb n "self")) sig_parameters) ->
  List.length tokens
  = List.length (filter (fun n => negb (String.eqb n "self")) sig_parameters) ->
  normalize func_name sig_parameters (ParamList tokens)
  = ([], Return (combine (filter (fun n => negb (String.eqb n "self")) sig_parameters)
                         (map bind_token tokens))).
Proof.
  intros Hname Hnodup Hlen. unfold normalize. rewrite Hname, Hlen, Nat.eqb_refl.
  cbn [negb]. rewrite bind_positional_fresh; [reflexivity | exact Hlen | exact Hnodup].
Qed.

(** The general case again, entered also under the name of
    [int_list_to_exponential_sum] when the tool has not one parameter. *)
Lemma positional_tokens_bound_general (func_name : string) (sig_parameters : list string)
      (tokens : list value) :
  String.eqb func_name "int_list_to_exponential_sum" = false
  \/ List.length (filter (fun n => negb (String.eqb n "self")) sig_parameters) <> 1 ->
  NoDup (filter (fun n => negb (String.eqb n "self")) sig_parameters) ->
  List.length tokens
  = List.length (filter (fun n => negb (String.eqb n "self")) sig_parameters) ->
  normalize func_name sig_parameters (ParamList tokens)
  = ([], Return (combine (filter (fun n => negb (String.eqb n "self")) sig_parameters)
                         (map bind_token tokens))).
Proof.
  intros Hcase Hnodup Hlen. unfold normalize.
  set (names := filter (fun n => negb (String.eqb n "self")) sig_parameters) in *.
  assert (Hgeneral : (if negb (List.length tokens =? List.length names)
                      then raise (mkExc ValueError
                                    ("Expected " ++ PyStr.of_nat (List.length names)
                                       ++ " parameters for " ++ func_name
                                       ++ ", got " ++ PyStr.of_nat (List.length tokens)))
                      else ret (bind_positional names tokens []))
                     = ([], Return (combine names (map bind_token tokens)))).
  { rewrite Hlen, Nat.eqb_refl. cbn [negb].
    rewrite bind_positional_fresh; [reflexivity | exact Hlen | exact Hnodup]. }
  destruct (String.eqb func_name "int_list_to_exponential_sum") eqn:Hname;
    [|exact Hgeneral].
  destruct Hcase as [Hcase | Hcase]; [discriminate|].
  destruct names as [|n [|n' names']]; try exact Hgeneral.
  exfalso. apply Hcase. reflexivity.
Qed.

(** C9, as amended.  A token made of items between brackets, separated by
    commas, each possibly between quotes and white space, is repaired where
    a token is bound to the parameter of its position: its value is the
    ordered list of the texts of its items, and the empty list for the token
    "[]", which is the token of no item.  This holds in the general case for
    every tool, every number of tokens and every position of the token, and
    for the single token of [int_list_to_exponential_sum]; the tool makes
    the same of such a string.  The tokens that the special case of
    [int_list_to_exponential_sum] folds into one list, two or more, are not
    repaired: the token stays in that list as the string it is. *)
Theorem list_token_repaired_where_bound (items : list item) :
  forallb well_formed items = true ->
  list_token [] = "[]"
  /\ bind_token (VStr (list_token items)) = VList (map (fun i => VStr (text i)) items)
  /\ (forall func_name sig_parameters before after,
         String.eqb func_name "int_list_to_exponential_sum" = false
         \/ List.length (filter (fun n => negb (String.eqb n "self")) sig_parameters) <> 1 ->
         NoDup (filter (fun n => negb (String.eqb n "self")) sig_parameters) ->
         List.length (before ++ VStr (list_token items) :: after)
         = List.length (filter (fun n => negb (String.eqb n "self")) sig_parameters) ->
         normalize func_name sig_parameters
                   (ParamList (before ++ VStr (list_token items) :: after))
         = ([], Return (combine (filter (fun n => negb (String.eqb n "self")) sig_parameters)
                                (map bind_token before
                                   ++ VList (map (fun i => VStr (text i)) items)
                                   :: map bind_token after))))
  /\ (forall sig_parameters name,
         filter (fun n => negb (String.eqb n "self")) sig_parameters = [name] ->
         outcome (normalize "int_list_to_exponential_sum" sig_parameters
                            (ParamList [VStr (list_token items)]))
         = Return [(name, VList (map (fun i => VStr (text i)) items))])
  /\ parse_int_list (VStr (list_token items))
     = Return (VList (map (fun i => VStr (text i)) items))
  /\ (forall sig_parameters name before after,
         filter (fun n => negb (String.eqb n "self")) sig_parameters = [name] ->
         0 < List.length (before ++ after) ->
         outcome (normalize "int_list_to_exponential_sum" sig_parameters
                            (ParamList (before ++ VStr (list_token items) :: after)))
         = Return [(name, VList (before ++ VStr (list_token items) :: after))]).
Proof.
  intros Hwf.
  assert (Hitems : Forall shaped items).
  { apply Forall_forall. intros i Hi. apply well_formed_shaped.
    rewrite forallb_forall in Hwf. apply Hwf, Hi. }
  assert (Hbind : bind_token (VStr (list_token items))
                  = VList (map (fun i => VStr (text i)) items)).
  { unfold bind_token. rewrite is_list_string_token. apply parse_list_token, Hitems. }
  split; [reflexivity|]. split; [exact Hbind|]. split; [|split; [|split]].
  - intros func_name sig_parameters before after Hcase Hnodup Hlen.
    rewrite (positional_tokens_bound_general func_name sig_parameters _ Hcase Hnodup Hlen).
    rewrite map_app. cbn [map]. rewrite Hbind. reflexivity.
  - intros sig_parameters name Hsig.
    rewrite (normalize_one_list_string sig_parameters name (list_token items) Hsig
               (is_list_string_token items)).
    rewrite (parse_list_token items Hitems). reflexivity.
  - unfold parse_int_list.
    rewrite is_list_string_token, (parse_list_token items Hitems). reflexivity.
  - intros sig_parameters name before after Hsig Hmore.
    unfold outcome, normalize. rewrite Hsig. cbn [String.eqb Ascii.eqb Bool.eqb].
    assert (Hlen : (1 <? List.length (before ++ VStr (list_token items) :: after)) = true).
    { apply Nat.ltb_lt. rewrite length_app in *. cbn [List.length]. lia. }
    rewrite Hlen. reflexivity.
Qed.

(** C3, as the code has it.  For the tool named [int_list_to_exponential_sum]
    with one parameter, more than one token is folded into one list bound to
    that parameter, and the tokens are left as they are.  For a tool of any
    other name with one parameter, more than one token is a failure: the
    [ValueError] "Expected 1 parameters for <name>, got <count>". *)
Theorem single_parameter_tokens (func_name : string) (sig_parameters : list string)
        (name : string) (tokens : list value) :
  filter (fun n => negb (String.eqb n "self")) sig_parameters = [name] ->
  1 < List.length tokens ->
  (func_name = "int_list_to_exponential_sum" ->
   outcome (normalize func_name sig_parameters (ParamList tokens))
   = Return [(name, VList tokens)])
  /\ (func_name <> "int_list_to_exponential_sum" ->
      normalize func_name sig_parameters (ParamList tokens)
      = ([], Raise (mkExc ValueError
                      ("Expected 1 parameters for " ++ func_name ++ ", got "
                         ++ PyStr.of_nat (List.length tokens))))).
Proof.
  intros Hsig Hlen. split; intros Hname.
  - subst func_name. unfold outcome, normalize. rewrite Hsig, String.eqb_refl.
    apply Nat.ltb_lt in Hlen. rewrite Hlen. reflexivity.
  - apply String.eqb_neq in Hname. unfold normalize. rewrite Hsig, Hname.
    assert (Hneq : (List.length tokens =? List.length [name]) = false).
    { apply Nat.eqb_neq. cbn. lia. }
    rewrite Hneq. reflexivity.
Qed.

(** The dictionary case binds the values as they are. *)
Lemma bind_named_all_known (func_name : string) (sig_parameters : list string)
      (d acc : list (string * value)) :
  forallb (fun kv => PyDict.mem (fst kv) sig_parameters) d = true ->
  bind_named func_name sig_parameters d acc
  = Return (fold_left (fun a kv => PyDict.set a (fst kv) (snd kv)) d acc).
Proof.
  revert acc. induction d as [|[k v] d IH]; intros acc H; [reflexivity|].
  cbn in H. apply andb_true_iff in H. destruct H as [Hk Hd].
  cbn [bind_named fold_left fst snd]. rewrite Hk. apply IH, Hd.
Qed.

Lemma bind_named_unknown (func_name : string) (sig_parameters : list string)
      (known : list (string * value)) (k : string) (v : value)
      (rest acc : list (string * value)) :
  forallb (fun kv => PyDict.mem (fst kv) sig_parameters) known = true ->
  PyDict.mem k sig_parameters = false ->
  bind_named func_name sig_parameters (known ++ (k, v) :: rest) acc
  = Raise (mkExc ValueError ("Unknown parameter " ++ k ++ " for " ++ func_name)).
Proof.
  revert acc. induction known as [|[k' v'] known IH]; intros acc Hknown Hk.
  - cbn. rewrite Hk. reflexivity.
  - cbn in Hknown. apply andb_true_iff in Hknown. destruct Hknown as [Hk' Hknown].
    cbn [app bind_named]. rewrite Hk'. apply IH; assumption.
Qed.

Lemma set_fresh (acc : list (string * value)) (k : string) (v : value) :
  ~ In k (PyDict.keys acc) -> PyDict.set acc k v = (acc ++ [(k, v)])%list.
Proof.
  induction acc as [|[k' v'] acc IH]; intros H; [reflexivity|].
  cbn in *. destruct (String.eqb k k') eqn:E.
  - apply String.eqb_eq in E. subst. exfalso. apply H. now left.
  - rewrite IH; [reflexivity|]. intros Hin. apply H. now right.
Qed.

Lemma fold_set_distinct (d acc : list (string * value)) :
  NoDup (PyDict.keys (acc ++ d)%list) ->
  fold_left (fun a kv => PyDict.set a (fst kv) (snd kv)) d acc = (acc ++ d)%list.
Proof.
  revert acc. induction d as [|[k v] d IH]; intros acc H.
  - cbn. now rewrite app_nil_r.
  - cbn [fold_left fst snd]. rewrite set_fresh.
    + rewrite IH; rewrite <- app_assoc; [reflexivity | exact H].
    + unfold PyDict.keys in *. rewrite map_app in H. cbn in H.
      apply NoDup_remove_2 in H. intros Hin. apply H. apply in_or_app. now left.
Qed.

(** C4, as the code has it.  For a dictionary of named values (its keys
    distinct, as in every dictionary): when every key is a parameter of the
    signature, the arguments are the dictionary itself, every value bound as
    it is, a string included; otherwise the first key that is no parameter
    makes the normalization fail with a [ValueError] naming it. *)
Theorem named_values_bound_as_given (func_name : string) (sig_parameters : list string)
        (d : list (string * value)) :
  NoDup (PyDict.keys d) ->
  (forallb (fun kv => PyDict.mem (fst kv) sig_parameters) d = true ->
   normalize func_name sig_parameters (ParamDict d) = ([], Return d))
  /\ (forall known k v rest,
        d = (known ++ (k, v) :: rest)%list ->
        forallb (fun kv => PyDict.mem (fst kv) sig_parameters) known = true ->
        PyDict.mem k sig_parameters = false ->
        normalize func_name sig_parameters (ParamDict d)
        = ([], Raise (mkExc ValueError
                        ("Unknown parameter " ++ k ++ " for " ++ func_name)))).
Proof.
  intros Hkeys. split.
  - intros Hall. unfold normalize, lift.
    rewrite (bind_named_all_known _ _ _ _ Hall).
    rewrite (fold_set_distinct d []); [reflexivity | exact Hkeys].
  - intros known k v rest -> Hknown Hk. unfold normalize, lift.
    rewrite (bind_named_unknown _ _ _ _ _ _ _ Hknown Hk). reflexivity.
Qed.

End Normalizer.

(** ** The repair of truncated JSON *)

Section JsonRepair.

Import Action PyStrFacts.

Lemma count_with_closers (s : string) :
  PyStr.count "[" (with_closers s) - PyStr.count "]" (with_closers s) = 0
  /\ PyStr.count "{" (with_closers s) - PyStr.count "}" (with_closers s) = 0.
Proof.
  unfold with_closers. rewrite !count_append, !count_repeat_same.
  rewrite !count_repeat_other by reflexivity. lia.
Qed.

(** A completed text is left as it is. *)
Lemma complete_json_with_closers (s : string) :
  complete_json (with_closers s) = with_closers s.
Proof.
  unfold complete_json.
  destruct (negb (PyStr.endswith "}" (with_closers s))); [|reflexivity].
  destruct (PyStr.contains _ (with_closers s) && _); [|reflexivity].
  destruct (count_with_closers s) as [-> ->]. cbn [PyStr.repeat_char].
  now rewrite !append_empty_r.
Qed.

Lemma complete_json_truncated (s : string) :
  PyStr.endswith "}" s = false ->
  PyStr.contains (PyStr.quoted "numbers" ++ ": [") s = true ->
  complete_json s = with_closers s.
Proof.
  intros Hend Hnumbers. unfold complete_json. rewrite Hend, Hnumbers.
  destruct (PyStr.endswith "]}" s) eqn:E.
  - apply endswith_tail in E. congruence.
  - reflexivity.
Qed.

(** C6, as the code has it.  Let a text start with "{", not end with "}" and
    contain the characters ["numbers": [] (one space after the colon).  The
    repair turns it into the text followed by its missing "]" and then its
    missing "}", counted character by character, and the value of [int_list]
    is the one obtained from that completed text: its [numbers] entry when it
    is a JSON object with one; when the completed text does not parse, the
    failure is a [ValueError] carrying the completed text and the text of the
    parse error. *)
Theorem truncated_json_repaired (s : string) :
  PyStr.startswith "{" s = true ->
  PyStr.endswith "}" s = false ->
  PyStr.contains (PyStr.quoted "numbers" ++ ": [") s = true ->
  complete_json s = with_closers s
  /\ parse_int_list (VStr s) = parse_int_list (VStr (with_closers s))
  /\ (forall data numbers,
        Json.loads (with_closers s) = Return (VDict data) ->
        PyDict.get data "numbers" = Some numbers ->
        parse_int_list (VStr s) = Return numbers)
  /\ (forall e,
        Json.loads (with_closers s) = Raise e ->
        exc_class e = JSONDecodeError ->
        parse_int_list (VStr s)
        = Raise (mkExc ValueError
                   ("Failed to parse JSON string '" ++ with_closers s ++ "': "
                      ++ exc_str e))).
Proof.
  intros Hstart Hend Hnumbers.
  pose proof (complete_json_truncated s Hend Hnumbers) as Hcomplete.
  assert (Hstart' : PyStr.startswith "{" (with_closers s) = true).
  { unfold with_closers. apply prefix_append, Hstart. }
  split; [exact Hcomplete|].
  unfold parse_int_list. rewrite Hstart, Hstart', Hcomplete, complete_json_with_closers.
  split; [reflexivity|]. split.
  - intros data numbers Hloads Hget. rewrite Hloads, Hget. reflexivity.
  - intros e Hloads Hclass. rewrite Hloads, Hclass. reflexivity.
Qed.

End JsonRepair.

(** ** The protocol parser and the iteration loop *)

Section Controller.

Import Main.

Variable func_map : list (string * Action.tool).
Variable generate_decision_response : list trace_entry -> result string.
Variable facts_str : result string.

#[local] Abbreviation body := (Main.body func_map generate_decision_response facts_str).
#[local] Abbreviation while := (Main.while func_map generate_decision_response facts_str).
#[local] Abbreviation passes := (Main.passes func_map generate_decision_response facts_str).

(** Without a directive line the parser answers [(None, None)], whether the
    text holds the keyword of the final answer or not. *)
Lemma get_decision_no_call_line (text : string) :
  Decision.function_call_line (PyStr.split PyStr.newline text) = None ->
  Decision.get_decision text = (None, None).
Proof.
  intros H. unfold Decision.get_decision. rewrite H.
  destruct (PyStr.contains "FINAL_ANSWER:" text); reflexivity.
Qed.

(** The four ways out of one pass. *)
Lemma body_cases (st : state) :
  match body st with
  | Next st' =>
      iteration st' = S (iteration st)
      /\ exists name params result,
           iteration_response st'
           = (iteration_response st
                ++ [CallRecord (S (iteration st)) name params result])%list
  | BreakFinalAnswer st' =>
      iteration st' = iteration st
      /\ exists text,
           iteration_response st' = (iteration_response st ++ [FinalAnswerRecord text])%list
  | BreakError st' =>
      iteration st' = iteration st
      /\ exists n e,
           iteration_response st' = (iteration_response st ++ [ErrorRecord n e])%list
  | Escapes _ st' => iteration st' = iteration st
  end.
Proof.
  unfold Main.body.
  destruct (match last_response st with None => facts_str | Some _ => Return EmptyString end);
    [|reflexivity].
  destruct (generate_decision_response (iteration_response st)) as [text | e].
  - destruct (Decision.get_decision text) as [func_name params].
    destruct (truthy func_name) as [name|].
    + destruct (Action.outcome _) as [result | e]; cbn [iteration iteration_response].
      * split; [lia|]. rewrite Nat.add_1_r. eauto.
      * destruct (isinstance_Exception (exc_class e)); cbn; eauto.
    + cbn. eauto.
  - destruct (isinstance_Exception (exc_class e)); cbn; eauto.
Qed.

Lemma forallb_calls_snoc (l : list trace_entry) (entry : trace_entry) :
  forallb is_call l = true -> is_call entry = true ->
  forallb is_call (l ++ [entry]) = true.
Proof. intros Hl He. rewrite forallb_app, Hl. cbn. now rewrite He. Qed.

(** From a state that satisfies the invariant, fuel for the passes that
    remain is enough: the loop ends, after at most that many passes, and the
    final state shows how. *)
Lemma while_ends (fuel : nat) (st : state) :
  counted st ->
  iteration st <= max_iterations ->
  max_iterations - iteration st <= fuel ->
  exists st' how,
    while fuel st = Some (st', how)
    /\ passes fuel st <= max_iterations - iteration st
    /\ shown how st'.
Proof.
  revert st. induction fuel as [|fuel IH]; intros st [Hlen Hcalls] Hle Hfuel.
  - assert (Hmax : iteration st = max_iterations) by lia.
    exists st, ConditionFalse. cbn [Main.while Main.passes].
    assert (Hcond : (iteration st <? max_iterations) = false) by (apply Nat.ltb_ge; lia).
    rewrite Hcond. repeat split; try lia; try assumption.
  - cbn [Main.while Main.passes].
    destruct (iteration st <? max_iterations) eqn:Hcond.
    + apply Nat.ltb_lt in Hcond. pose proof (body_cases st) as Hbody.
      destruct (body st) as [st' | st' | st' | e st'].
      * destruct Hbody as [Hit (name & params & result & Htrace)].
        destruct (IH st') as (st'' & how & Hwhile & Hpasses & Hshown).
        { split.
          - rewrite Htrace, length_app, Hlen, Hit. cbn. lia.
          - rewrite Htrace. apply forallb_calls_snoc; [assumption | reflexivity]. }
        { lia. }
        { lia. }
        exists st'', how. repeat split; [assumption | lia | assumption].
      * destruct Hbody as [Hit (text & Htrace)].
        exists st', FinalAnswer. repeat split; [lia | cbn; lia |].
        exists (iteration_response st), text. split; assumption.
      * destruct Hbody as [Hit (n & e & Htrace)].
        exists st', Failed. repeat split; [lia | cbn; lia |].
        exists (iteration_response st), n, e. split; assumption.
      * exists st', (Escaped e). repeat split; [lia | cbn; lia].
    + apply Nat.ltb_ge in Hcond.
      exists st, ConditionFalse. repeat split; try lia; try assumption.
Qed.




(** C1, as the code has it.  A text with no directive line and without the
    keyword of the final answer is parsed to [(None, None)], the very pair
    that a text with the keyword gives; the loop then appends the record
    "FINAL_ANSWER received: <text>" to the trace and stops as it does for a
    final answer, with no call of [act] and no record of an error. *)
Theorem unrecognized_text_ends_the_loop (st : state) (text : string) :
  Decision.function_call_line (PyStr.split PyStr.newline text) = None ->
  PyStr.contains "FINAL_ANSWER:" text = false ->
  iteration st < max_iterations ->
  (last_response st = None -> exists s, facts_str = Return s) ->
  generate_decision_response (iteration_response st) = Return text ->
  Decision.get_decision text = (None, None)
  /\ (forall answer,
        Decision.function_call_line (PyStr.split PyStr.newline answer) = None ->
        PyStr.contains "FINAL_ANSWER:" answer = true ->
        Decision.get_decision answer = Decision.get_decision text)
  /\ body st = BreakFinalAnswer (append st (FinalAnswerRecord text))
  /\ (forall fuel,
        while (S fuel) st = Some (append st (FinalAnswerRecord text), FinalAnswer)).
Proof.
  intros Hline Hkeyword Hit Hfacts Htext.
  pose proof (get_decision_no_call_line text Hline) as Hparse.
  assert (Hbody : body st = BreakFinalAnswer (append st (FinalAnswerRecord text))).
  { unfold Main.body.
    assert (Hprompt : exists s,
               match last_response st with None => facts_str | Some _ => Return EmptyString end
               = Return s).
    { destruct (last_response st); [eauto | apply Hfacts; reflexivity]. }
    destruct Hprompt as [s ->]. rewrite Htext, Hparse. reflexivity. }
  split; [exact Hparse|]. split.
  - intros answer Hline' _. rewrite Hparse. apply get_decision_no_call_line, Hline'.
  - split; [exact Hbody|]. intros fuel. cbn [Main.while].
    apply Nat.ltb_lt in Hit. rewrite Hit, Hbody. reflexivity.
Qed.

End Controller.

(** ** The tools [calculate] and [verify] *)

Section Evaluation.

Import Action.

Variable py_eval : string -> result value.
Variable py_str : value -> result string.
Variable float_close : value -> value -> result bool.

#[local] Abbreviation calculate := (Action.calculate py_eval py_str).
#[local] Abbreviation verify := (Action.verify py_eval float_close).

Lemma or_error_message_raise (e : exc) :
  isinstance_Exception (exc_class e) = true ->
  or_error_message (Raise e) = Return (VStr ("Error: " ++ exc_str e)).
Proof. intros H. unfold or_error_message. rewrite H. reflexivity. Qed.

(** A signal that does not derive from [Exception] goes through both tools. *)
Lemma calculate_lets_signals_through (expression : string) (expected : value) (e : exc) :
  py_eval expression = Raise e ->
  isinstance_Exception (exc_class e) = false ->
  calculate expression = Raise e /\ verify expression expected = Raise e.
Proof.
  intros Heval Hexc. unfold Action.calculate, Action.verify. rewrite Heval. cbn.
  rewrite Hexc. split; reflexivity.
Qed.

(** C10, as the code has it.  For an expression on which nothing but
    exceptions deriving from [Exception] can be raised, [calculate] and
    [verify] both return a string: the string form of the value computed
    ("True" or "False" for [verify]) when nothing is raised, and otherwise
    "Error: " followed by the text of the exception. *)
Theorem calculate_verify_return_strings (expression : string) (expected : value) :
  (forall e, raised_in_calculate py_eval py_str expression e ->
             isinstance_Exception (exc_class e) = true) ->
  (forall e, raised_in_verify py_eval float_close expression expected e ->
             isinstance_Exception (exc_class e) = true) ->
  (exists text,
      calculate expression = Return (VStr text)
      /\ ((exists v, py_eval expression = Return v /\ py_str v = Return text)
          \/ (exists e, raised_in_calculate py_eval py_str expression e
                        /\ text = "Error: " ++ exc_str e)))
  /\ (exists text,
        verify expression expected = Return (VStr text)
        /\ ((exists v b, py_eval expression = Return v
                         /\ float_close v expected = Return b
                         /\ text = if b then "True" else "False")
            \/ (exists e, raised_in_verify py_eval float_close expression expected e
                          /\ text = "Error: " ++ exc_str e))).
Proof.
  intros Hcalc Hverify. unfold Action.calculate, Action.verify.
  unfold raised_in_calculate, raised_in_verify in *.
  destruct (py_eval expression) as [v | e] eqn:Heval; cbn [bind].
  - split.
    + destruct (py_str v) as [text | e] eqn:Hstr; cbn [bind].
      * exists text. split; [reflexivity|]. left. eauto.
      * exists ("Error: " ++ exc_str e). split.
        -- apply or_error_message_raise, Hcalc. right. eauto.
        -- right. exists e. split; [right; eauto | reflexivity].
    + destruct (float_close v expected) as [b | e] eqn:Hclose; cbn [bind].
      * exists (if b then "True" else "False"). split; [reflexivity|].
        left. exists v, b. auto.
      * exists ("Error: " ++ exc_str e). split.
        -- apply or_error_message_raise, Hverify. right. eauto.
        -- right. exists e. split; [right; eauto | reflexivity].
  - split; exists ("Error: " ++ exc_str e); split.
    + apply or_error_message_raise, Hcalc. now left.
    + right. exists e. split; [now left | reflexivity].
    + apply or_error_message_raise, Hverify. now left.
    + right. exists e. split; [now left | reflexivity].
Qed.

End Evaluation.

(** ** Counterexamples, witnesses and examples *)

Section Concrete.

Import Action.

(** C1, counterexample.  The text "I am not sure what to do." holds neither
    directive.  The parser gives for it the pair it gives for
    "FINAL_ANSWER: 42", and the loop stops as on a final answer, its trace
    holding the record of a final answer and no record of an error. *)
Lemma unrecognized_text_counterexample :
  Decision.get_decision "I am not sure what to do."
  = Decision.get_decision "FINAL_ANSWER: 42"
  /\ Main.while (func_map mail_accepted)
       (fun _ => Return "I am not sure what to do.") (Return "{}")
       Main.max_iterations Main.reset_state
     = Some (Main.mkState 0 None
               [Main.FinalAnswerRecord "I am not sure what to do."] [],
             Main.FinalAnswer).
Proof. split; reflexivity. Qed.

(** C1 as amended, on that text at the first pass of a run. *)
Lemma unrecognized_text_ends_the_loop_witness :
  Decision.function_call_line (PyStr.split PyStr.newline "I am not sure what to do.") = None
  /\ PyStr.contains "FINAL_ANSWER:" "I am not sure what to do." = false
  /\ Main.iteration Main.reset_state < Main.max_iterations
  /\ Main.body (func_map mail_accepted)
       (fun _ => Return "I am not sure what to do.") (Return "{}") Main.reset_state
     = Main.BreakFinalAnswer
         (Main.append Main.reset_state (Main.FinalAnswerRecord "I am not sure what to do.")).
Proof.
  refine (let line := eq_refl in let keyword := eq_refl in
          let budget := _ in
          conj line (conj keyword (conj budget
            (proj1 (proj2 (proj2
               (unrecognized_text_ends_the_loop (func_map mail_accepted)
                  (fun _ => Return "I am not sure what to do.") (Return "{}")
                  Main.reset_state "I am not sure what to do."
                  line keyword budget (fun _ => ex_intro _ "{}" eq_refl) eq_refl))))))).
  unfold Main.max_iterations. cbn. lia.
Defined.

(** C2, at the failing input.  The coroutine function [send_email] returns
    its dictionary, and [act] hands [None] to its caller. *)
Theorem act_send_email_returns_None :
  send_email mail_accepted [("text", VStr "Final answer: 7.599e+33")]
  = Return (VDict [("content", VList [VTextContent "text" "Email sent successfully!"])])
  /\ act (func_map mail_accepted) "send_email"
         (ParamList [VStr "Final answer: 7.599e+33"])
     = ([Log (FinalArguments [("text", VStr "Final answer: 7.599e+33")]);
         Log (CallingTool "send_email");
         Called "send_email" [("text", VStr "Final answer: 7.599e+33")]],
        Return VNone).
Proof. split; reflexivity. Qed.

(** The same call of a synchronous tool hands over the value computed. *)
Example act_strings_to_chars_to_int :
  outcome (act (func_map mail_accepted) "strings_to_chars_to_int"
               (ParamList [VStr "INDIA"]))
  = Return (VList [VInt 73; VInt 78; VInt 68; VInt 73; VInt 65]).
Proof. reflexivity. Qed.

(** C3, counterexample.  [strings_to_chars_to_int] has the one parameter
    [text]; two tokens are not folded, the normalization fails on their
    number. *)
Lemma single_parameter_counterexample :
  normalize "strings_to_chars_to_int" ["text"] (ParamList [VStr "IN"; VStr "DIA"])
  = ([], Raise (mkExc ValueError
                  "Expected 1 parameters for strings_to_chars_to_int, got 2")).
Proof. reflexivity. Qed.

(** C3 as amended, on the five tokens of the specification's scenario. *)
Lemma single_parameter_tokens_witness :
  filter (fun n => negb (String.eqb n "self")) ["int_list"] = ["int_list"]
  /\ 1 < List.length [VStr "73"; VStr "78"; VStr "68"; VStr "73"; VStr "65"]
  /\ outcome (normalize "int_list_to_exponential_sum" ["int_list"]
                (ParamList [VStr "73"; VStr "78"; VStr "68"; VStr "73"; VStr "65"]))
     = Return [("int_list", VList [VStr "73"; VStr "78"; VStr "68"; VStr "73"; VStr "65"])].
Proof.
  refine (let sig := eq_refl in let len := _ in
          conj sig (conj len
            (proj1 (single_parameter_tokens "int_list_to_exponential_sum" ["int_list"]
                      "int_list" [VStr "73"; VStr "78"; VStr "68"; VStr "73"; VStr "65"]
                      sig len) eq_refl))).
  cbn. lia.
Defined.

(** C4, counterexample.  The string "[a, b, c]" given by name is bound as
    that string; given by position it is bound as a list. *)
Lemma named_string_counterexample :
  normalize "strings_to_chars_to_int" ["text"] (ParamDict [("text", VStr "[a, b, c]")])
  = ([], Return [("text", VStr "[a, b, c]")])
  /\ normalize "strings_to_chars_to_int" ["text"] (ParamList [VStr "[a, b, c]"])
     = ([], Return [("text", VList [VStr "a"; VStr "b"; VStr "c"])]).
Proof. split; reflexivity. Qed.

(** C4 as amended, on the dictionary of the counterexample. *)
Lemma named_values_bound_as_given_witness :
  NoDup (PyDict.keys [("text", VStr "[a, b, c]")])
  /\ normalize "strings_to_chars_to_int" ["text"] (ParamDict [("text", VStr "[a, b, c]")])
     = ([], Return [("text", VStr "[a, b, c]")]).
Proof.
  refine (let keys := _ in
          conj keys
            (proj1 (named_values_bound_as_given "strings_to_chars_to_int" ["text"]
                      [("text", VStr "[a, b, c]")] keys) eq_refl)).
  cbn. constructor; [intros [] | constructor].
Defined.

(** C5, counterexample.  On the token "[ab]" the tool raises the [TypeError]
    of [ord]; [act] raises that very exception, of class [TypeError], and no
    exception of a class of the dispatcher's own.  And when the sending of a
    mail is interrupted from the keyboard, the signal, which does not derive
    from [Exception], leaves [act] without a record of an error in the log. *)
Lemma tool_fault_counterexample :
  strings_to_chars_to_int [("text", VList [VStr "ab"])]
  = Raise (mkExc TypeError "ord() expected a character, but string of length 2 found")
  /\ outcome (act (func_map mail_accepted) "strings_to_chars_to_int"
                  (ParamList [VStr "[ab]"]))
     = Raise (mkExc TypeError "ord() expected a character, but string of length 2 found")
  /\ act (func_map mail_interrupted) "send_email" (ParamList [VStr "done"])
     = (before_call "send_email" [] [("text", VStr "done")],
        Raise (mkExc KeyboardInterrupt EmptyString)).
Proof. repeat split; reflexivity. Qed.

(** C5 as amended, on the call of the counterexample. *)
Lemma act_tool_fault_witness :
  PyDict.get (func_map mail_accepted) "strings_to_chars_to_int"
  = Some (mkTool ["text"] false strings_to_chars_to_int)
  /\ normalize "strings_to_chars_to_int" ["text"] (ParamList [VStr "[ab]"])
     = ([], Return [("text", VList [VStr "ab"])])
  /\ tool_raises (mkTool ["text"] false strings_to_chars_to_int)
       [("text", VList [VStr "ab"])]
       (mkExc TypeError "ord() expected a character, but string of length 2 found")
  /\ act (func_map mail_accepted) "strings_to_chars_to_int" (ParamList [VStr "[ab]"])
     = ((before_call "strings_to_chars_to_int" [] [("text", VList [VStr "ab"])]
           ++ [Log (ErrorWhileCallingTool "strings_to_chars_to_int"
                      (mkExc TypeError
                         "ord() expected a character, but string of length 2 found"));
               Log (ErrorInActMethod "strings_to_chars_to_int"
                      (mkExc TypeError
                         "ord() expected a character, but string of length 2 found"))])%list,
        Raise (mkExc TypeError "ord() expected a character, but string of length 2 found")).
Proof.
  refine (let found := eq_refl in let normalized := eq_refl in
          let raises := or_introl eq_refl in
          conj found (conj normalized (conj raises
            (act_tool_fault (func_map mail_accepted) "strings_to_chars_to_int"
               (mkTool ["text"] false strings_to_chars_to_int) (ParamList [VStr "[ab]"])
               [] [("text", VList [VStr "ab"])]
               (mkExc TypeError "ord() expected a character, but string of length 2 found")
               found normalized raises eq_refl)))).
Defined.

(** C6, counterexample.  The text of the example without the space after the
    colon, cut after its last number, is a JSON object with a [numbers] key
    that misses its two closers.  It is not repaired: the operation fails,
    while the complete text gives the three numbers. *)
Lemma truncated_json_counterexample :
  complete_json numbers_truncated_tight = numbers_truncated_tight
  /\ (exists text, parse_int_list (VStr numbers_truncated_tight)
                   = Raise (mkExc ValueError text))
  /\ with_closers numbers_truncated_tight = numbers_complete_tight
  /\ parse_int_list (VStr numbers_complete_tight) = Return (VList [VInt 1; VInt 2; VInt 3]).
Proof.
  split; [reflexivity|]. split; [eexists; vm_compute; reflexivity|].
  split; reflexivity.
Qed.

(** C6 as amended, on the text of the specification's example. *)
Lemma truncated_json_repaired_witness :
  PyStr.startswith "{" numbers_truncated = true
  /\ PyStr.endswith "}" numbers_truncated = false
  /\ PyStr.contains (PyStr.quoted "numbers" ++ ": [") numbers_truncated = true
  /\ parse_int_list (VStr numbers_truncated) = Return (VList [VInt 1; VInt 2; VInt 3]).
Proof.
  refine (let starts := eq_refl in let ends := eq_refl in let holds := eq_refl in
          conj starts (conj ends (conj holds
            (proj1 (proj2 (proj2
               (truncated_json_repaired numbers_truncated starts ends holds)))
               [("numbers", VList [VInt 1; VInt 2; VInt 3])]
               (VList [VInt 1; VInt 2; VInt 3]) eq_refl eq_refl)))).
Defined.

(** C7 on [open_paint], which the registry does not hold. *)
Lemma act_unknown_tool_witness :
  PyDict.get (func_map mail_accepted) "open_paint" = None
  /\ outcome (act (func_map mail_accepted) "open_paint" (ParamList []))
     = Raise (mkExc ValueError "Unknown tool: open_paint")
  /\ calls (act (func_map mail_accepted) "open_paint" (ParamList [])) = [].
Proof.
  refine (let absent := eq_refl in
          conj absent
            (conj (f_equal snd
                     (proj1 (act_unknown_tool (func_map mail_accepted) "open_paint"
                               (ParamList []) absent)))
                  (proj2 (act_unknown_tool (func_map mail_accepted) "open_paint"
                            (ParamList []) absent)))).
Defined.

(** C9, counterexample.  The call of the directive
    FUNCTION_CALL: int_list_to_exponential_sum|[73, 78]|68 has two tokens;
    the special case folds them into one list, in which the token between
    brackets stays the string it is, while the same token alone is bound as
    the list of its two items. *)
Lemma folded_list_token_counterexample :
  Decision.get_decision "FUNCTION_CALL: int_list_to_exponential_sum|[73, 78]|68"
  = (Some "int_list_to_exponential_sum", Some ["[73, 78]"; "68"])
  /\ outcome (normalize "int_list_to_exponential_sum" ["int_list"]
                (ParamList [VStr "[73, 78]"; VStr "68"]))
     = Return [("int_list", VList [VStr "[73, 78]"; VStr "68"])]
  /\ outcome (normalize "int_list_to_exponential_sum" ["int_list"]
                (ParamList [VStr "[73, 78]"]))
     = Return [("int_list", VList [VStr "73"; VStr "78"])].
Proof. repeat split; reflexivity. Qed.

(** C9 as amended, on a token whose items carry quotes of both kinds and
    white space: second of two tokens of a tool with two parameters, single
    token of [int_list_to_exponential_sum], and first of two tokens that the
    special case folds. *)
Lemma list_token_repaired_where_bound_witness :
  forallb well_formed items_quoted = true
  /\ list_token items_quoted = "['a', " ++ PyStr.quoted "b" ++ " , c]"
  /\ bind_token (VStr (list_token items_quoted)) = VList [VStr "a"; VStr "b"; VStr "c"]
  /\ normalize "verify" ["expression"; "expected"]
               (ParamList [VStr "1+1"; VStr (list_token items_quoted)])
     = ([], Return [("expression", VStr "1+1");
                    ("expected", VList [VStr "a"; VStr "b"; VStr "c"])])
  /\ outcome (normalize "int_list_to_exponential_sum" ["int_list"]
                (ParamList [VStr (list_token items_quoted)]))
     = Return [("int_list", VList [VStr "a"; VStr "b"; VStr "c"])]
  /\ outcome (normalize "int_list_to_exponential_sum" ["int_list"]
                (ParamList [VStr (list_token items_quoted); VStr "d"]))
     = Return [("int_list", VList [VStr (list_token items_quoted); VStr "d"])].
Proof.
  assert (Hnames : NoDup (filter (fun n => negb (String.eqb n "self"))
                                 ["expression"; "expected"])).
  { cbn. repeat constructor; cbn; intuition discriminate. }
  assert (Hmore : 0 < List.length (@nil value ++ [VStr "d"])) by (cbn; lia).
  destruct (list_token_repaired_where_bound items_quoted eq_refl)
    as (_ & Hbind & Hgeneral & Hsingle & _ & Hfolded).
  split; [reflexivity|]. split; [reflexivity|]. split; [exact Hbind|].
  split; [|split].
  - exact (Hgeneral "verify" ["expression"; "expected"] [VStr "1+1"] []
                    (or_introl eq_refl) Hnames eq_refl).
  - exact (Hsingle ["int_list"] "int_list" eq_refl).
  - exact (Hfolded ["int_list"] "int_list" [] [VStr "d"] eq_refl Hmore).
Defined.



(** A run in which the model asks for the same call at every pass: the loop
    stops after [max_iterations] passes, the budget spent. *)
Example budget_exhausted :
  exists st,
    Main.while (func_map mail_accepted)
      (fun _ => Return "FUNCTION_CALL: strings_to_chars_to_int|INDIA") (Return "{}")
      Main.max_iterations Main.reset_state
    = Some (st, Main.ConditionFalse)
    /\ Main.iteration st = 10
    /\ List.length (Main.iteration_response st) = 10
    /\ Main.passes (func_map mail_accepted)
         (fun _ => Return "FUNCTION_CALL: strings_to_chars_to_int|INDIA") (Return "{}")
         Main.max_iterations Main.reset_state = 10.
Proof. eexists. vm_compute. repeat split; reflexivity. Qed.

(** C10, counterexample.  [eval] raises [SystemExit] on the expression
    "__import__('sys').exit()"; the signal does not derive from [Exception],
    the handler of neither tool catches it, and both tools raise it to their
    caller instead of returning a string. *)
Lemma calculate_counterexample :
  calculate eval_exits str_of_text "__import__('sys').exit()"
  = Raise (mkExc SystemExit EmptyString)
  /\ verify eval_exits close_never "__import__('sys').exit()" (VStr "0")
     = Raise (mkExc SystemExit EmptyString).
Proof. split; reflexivity. Qed.

(** C10 as amended, on the expression "1/0". *)
Lemma calculate_verify_return_strings_witness :
  (forall e, raised_in_calculate eval_division_by_zero str_of_text "1/0" e ->
             isinstance_Exception (exc_class e) = true)
  /\ (forall e, raised_in_verify eval_division_by_zero close_never "1/0" (VStr "0") e ->
                isinstance_Exception (exc_class e) = true)
  /\ calculate eval_division_by_zero str_of_text "1/0"
     = Return (VStr "Error: division by zero")
  /\ (exists text,
        verify eval_division_by_zero close_never "1/0" (VStr "0") = Return (VStr text)).
Proof.
  assert (Hc : forall e, raised_in_calculate eval_division_by_zero str_of_text "1/0" e ->
                         isinstance_Exception (exc_class e) = true).
  { intros e [H | (v & H & _)]; inversion H; reflexivity. }
  assert (Hv : forall e,
             raised_in_verify eval_division_by_zero close_never "1/0" (VStr "0") e ->
             isinstance_Exception (exc_class e) = true).
  { intros e [H | (v & H & _)]; inversion H; reflexivity. }
  split; [exact Hc|]. split; [exact Hv|]. split; [reflexivity|].
  destruct (calculate_verify_return_strings eval_division_by_zero str_of_text close_never
              "1/0" (VStr "0") Hc Hv) as [_ [text [Htext _]]].
  exists text. exact Htext.
Defined.

(** The scenario of the final answer: the loop stops at the first pass and
    nothing is dispatched. *)
Example final_answer_ends_without_dispatch :
  Main.while (func_map mail_accepted)
    (fun _ => Return "FINAL_ANSWER: ALL TASKS COMPLETED") (Return "{}")
    Main.max_iterations Main.reset_state
  = Some (Main.mkState 0 None
            [Main.FinalAnswerRecord "FINAL_ANSWER: ALL TASKS COMPLETED"] [],
          Main.FinalAnswer).
Proof. reflexivity. Qed.

(** The two stages of a truncated text given to
    [int_list_to_exponential_sum]: the normalizer fails to parse it and
    leaves it as it is, the tool completes it; the complete text is parsed by
    the normalizer already.  The list of numbers is the same. *)
Example numbers_through_both_stages :
  outcome (normalize "int_list_to_exponential_sum" ["int_list"]
             (ParamList [VStr numbers_truncated]))
  = Return [("int_list", VStr numbers_truncated)]
  /\ parse_int_list (VStr numbers_truncated) = Return (VList [VInt 1; VInt 2; VInt 3])
  /\ outcome (normalize "int_list_to_exponential_sum" ["int_list"]
                (ParamList [VStr (with_closers numbers_truncated)]))
     = Return [("int_list", VList [VInt 1; VInt 2; VInt 3])].
Proof. repeat split; vm_compute; reflexivity. Qed.

(** The closers are counted character by character: a bracket inside a
    string literal counts, and the text completed with it does not parse. *)
Example closers_counted_in_strings :
  with_closers ("{" ++ PyStr.quoted "a" ++ ": " ++ PyStr.quoted "["
                    ++ ", " ++ PyStr.quoted "numbers" ++ ": [1,2")
  = "{" ++ PyStr.quoted "a" ++ ": " ++ PyStr.quoted "["
        ++ ", " ++ PyStr.quoted "numbers" ++ ": [1,2]]}"
  /\ (exists text,
        parse_int_list (VStr ("{" ++ PyStr.quoted "a" ++ ": " ++ PyStr.quoted "["
                                  ++ ", " ++ PyStr.quoted "numbers" ++ ": [1,2"))
        = Raise (mkExc ValueError text))
  /\ parse_int_list (VStr ("{" ++ PyStr.quoted "a" ++ ": " ++ PyStr.quoted "["
                               ++ ", " ++ PyStr.quoted "numbers" ++ ": [1,2]}"))
     = Return (VList [VInt 1; VInt 2]).
Proof.
  split; [reflexivity|]. split; [eexists; vm_compute; reflexivity | reflexivity].
Qed.

End Concrete.

(** * Further properties *)

(** ** More facts about the string primitives *)

Module StripFacts.

Import PyStr PyStrFacts.

Section Strip.
Variable p : ascii -> bool.

Lemma lstrip_starts (s : string) :
  lstrip_by p s = EmptyString
  \/ Action.first_is (fun c => negb (p c)) (lstrip_by p s) = true.
Proof.
  induction s as [|c s IH]; cbn; [now left|].
  destruct (p c) eqn:E; [exact IH | right; cbn; now rewrite E].
Qed.

Lemma rstrip_ends (s : string) :
  rstrip_by p s = EmptyString
  \/ Action.last_is (fun c => negb (p c)) (rstrip_by p s) = true.
Proof.
  induction s as [|c s IH]; cbn [rstrip_by]; [now left|].
  destruct IH as [IH | IH].
  - rewrite IH. cbn. destruct (p c) eqn:E; [now left | right; cbn; now rewrite E].
  - right. destruct (rstrip_by p s) as [|d r] eqn:Er; [discriminate IH|].
    cbn [is_empty andb]. exact IH.
Qed.

Lemma rstrip_keeps_start (s : string) :
  Action.first_is (fun c => negb (p c)) s = true ->
  Action.first_is (fun c => negb (p c)) (rstrip_by p s) = true.
Proof.
  destruct s as [|c s]; [discriminate|]. cbn [Action.first_is rstrip_by].
  intros H. pose proof H as H'. apply negb_true_iff in H'. rewrite H', andb_false_r.
  exact H.
Qed.

Lemma strip_fixed (s : string) :
  s = EmptyString
  \/ (Action.first_is (fun c => negb (p c)) s = true
      /\ Action.last_is (fun c => negb (p c)) s = true) ->
  strip_by p s = s.
Proof.
  intros [-> | [Hf Hl]]; [reflexivity|].
  unfold strip_by. rewrite (lstrip_keep p s Hf). apply rstrip_keep, Hl.
Qed.

Lemma strip_ends (s : string) :
  strip_by p s = EmptyString
  \/ (Action.first_is (fun c => negb (p c)) (strip_by p s) = true
      /\ Action.last_is (fun c => negb (p c)) (strip_by p s) = true).
Proof.
  unfold strip_by. destruct (lstrip_starts s) as [E | Hf].
  - rewrite E. now left.
  - destruct (rstrip_ends (lstrip_by p s)) as [E | Hl]; [now left|].
    right. split; [apply rstrip_keeps_start, Hf | exact Hl].
Qed.

Lemma strip_idempotent (s : string) : strip_by p (strip_by p s) = strip_by p s.
Proof. apply strip_fixed, strip_ends. Qed.

Variable q : ascii -> bool.

Lemma all_chars_lstrip (s : string) :
  Action.all_chars q s = true -> Action.all_chars q (lstrip_by p s) = true.
Proof.
  induction s as [|c s IH]; cbn; [trivial|].
  intros H. destruct (p c); [|exact H].
  apply andb_true_iff in H. apply IH, H.
Qed.

Lemma all_chars_rstrip (s : string) :
  Action.all_chars q s = true -> Action.all_chars q (rstrip_by p s) = true.
Proof.
  induction s as [|c s IH]; cbn [rstrip_by Action.all_chars]; [trivial|].
  intros H. apply andb_true_iff in H. destruct H as [Hc Hs].
  destruct (is_empty (rstrip_by p s) && p c); [reflexivity|].
  cbn. rewrite Hc. apply IH, Hs.
Qed.

Lemma all_chars_strip (s : string) :
  Action.all_chars q s = true -> Action.all_chars q (strip_by p s) = true.
Proof. intros H. apply all_chars_rstrip, all_chars_lstrip, H. Qed.

End Strip.

Lemma all_chars_append (q : ascii -> bool) (s t : string) :
  Action.all_chars q (s ++ t) = Action.all_chars q s && Action.all_chars q t.
Proof.
  induction s as [|c s IH]; cbn; [reflexivity|]. now rewrite IH, andb_assoc.
Qed.

(** The fields that [split] gives hold no separator, and no character that
    the text does not hold. *)
Lemma split_ne_fields (sep : ascii) (q : ascii -> bool) (s : string) :
  q sep = false ->
  (forall c, q c = true \/ Ascii.eqb c sep = true) ->
  Action.all_chars q (fst (split_ne sep s)) = true
  /\ forallb (Action.all_chars q) (snd (split_ne sep s)) = true.
Proof.
  intros Hsep Hq. induction s as [|c s [IHh IHt]]; [split; reflexivity|].
  cbn [split_ne]. destruct (split_ne sep s) as [h t]. cbn [fst snd] in *.
  destruct (Ascii.eqb c sep) eqn:E; cbn [fst snd].
  - split; [reflexivity | cbn; now rewrite IHh, IHt].
  - split; [|exact IHt]. cbn. rewrite IHh, andb_true_r.
    destruct (Hq c) as [H | H]; [exact H | congruence].
Qed.

Lemma split_ne_keeps (sep : ascii) (q : ascii -> bool) (s : string) :
  Action.all_chars q s = true ->
  Action.all_chars q (fst (split_ne sep s)) = true
  /\ forallb (Action.all_chars q) (snd (split_ne sep s)) = true.
Proof.
  induction s as [|c s IH]; [split; reflexivity|].
  cbn [split_ne Action.all_chars]. intros H. apply andb_true_iff in H.
  destruct H as [Hc Hs]. destruct (IH Hs) as [IHh IHt].
  destruct (split_ne sep s) as [h t]. cbn [fst snd] in *.
  destruct (Ascii.eqb c sep); cbn [fst snd].
  - split; [reflexivity | cbn; now rewrite IHh, IHt].
  - split; [cbn; now rewrite Hc, IHh | exact IHt].
Qed.

Lemma split_once_keeps (sep : ascii) (q : ascii -> bool) (s info : string) :
  Action.all_chars q s = true ->
  snd (split_once sep s) = Some info ->
  Action.all_chars q info = true.
Proof.
  induction s as [|c s IH]; [discriminate|].
  cbn [split_once Action.all_chars]. intros H. apply andb_true_iff in H.
  destruct H as [_ Hs]. destruct (Ascii.eqb c sep).
  - cbn. intros [= <-]. exact Hs.
  - destruct (split_once sep s) as [h t]. cbn in *. apply IH, Hs.
Qed.

Lemma split_one_line (sep : ascii) (s : string) :
  Action.all_chars (fun c => negb (Ascii.eqb c sep)) s = true ->
  split sep s = [s].
Proof.
  intros H. apply (split_join sep s []). constructor; [|constructor].
  apply ListTokens.count_none, H.
Qed.

End StripFacts.

(** ** The protocol parser *)

Section Parser.

Import PyStr PyStrFacts StripFacts Protocol.

Lemma function_call_line_first (pre post : list string) (line : string) :
  forallb (fun l => negb (is_directive l)) pre = true ->
  is_directive line = true ->
  Decision.function_call_line (pre ++ line :: post) = Some (strip line).
Proof.
  intros Hpre Hline. induction pre as [|l pre IH].
  - cbn. unfold is_directive in Hline. now rewrite Hline.
  - cbn in Hpre. apply andb_true_iff in Hpre. destruct Hpre as [Hl Hpre].
    apply negb_true_iff in Hl. unfold is_directive in Hl.
    cbn [app Decision.function_call_line]. rewrite Hl. apply IH, Hpre.
Qed.

Lemma function_call_line_found (lines : list string) (line : string) :
  Decision.function_call_line lines = Some line ->
  exists l, In l lines /\ line = strip l.
Proof.
  induction lines as [|l lines IH]; [discriminate|].
  cbn [Decision.function_call_line].
  destruct (startswith "FUNCTION_CALL:" (strip l)).
  - intros [= <-]. exists l. split; [now left | reflexivity].
  - intros H. destruct (IH H) as (l' & Hin & ->). exists l'. split; [now right | reflexivity].
Qed.

(** X1.  The first line whose stripped form starts with the directive decides:
    the lines before it that are no directive, and whatever follows it, a
    second directive or the keyword of the final answer included, change
    nothing. *)
Theorem first_directive_line_decides (pre post : list string) (line : string) :
  forallb one_line (pre ++ line :: post) = true ->
  forallb (fun l => negb (is_directive l)) pre = true ->
  is_directive line = true ->
  Decision.get_decision (join (String newline EmptyString) (pre ++ line :: post))
  = Decision.get_decision line.
Proof.
  intros Hlines Hpre Hline. unfold Decision.get_decision.
  assert (Hsplit : split newline (join (String newline EmptyString) (pre ++ line :: post))
                   = (pre ++ line :: post)%list).
  { destruct (pre ++ line :: post)%list as [|x rest] eqn:E.
    - destruct pre; discriminate E.
    - apply split_join. apply Forall_forall. intros l Hl.
      apply ListTokens.count_none. rewrite forallb_forall in Hlines.
      apply (Hlines l Hl). }
  assert (Hone : split newline line = [line]).
  { apply split_one_line. rewrite forallb_app in Hlines.
    apply andb_true_iff in Hlines. destruct Hlines as [_ Hlines]. cbn in Hlines.
    apply andb_true_iff in Hlines. apply Hlines. }
  rewrite Hsplit, Hone, (function_call_line_first pre post line Hpre Hline).
  pose proof (function_call_line_first [] [] line eq_refl Hline) as Halone.
  cbn [app] in Halone. rewrite Halone. reflexivity.
Qed.

Lemma last_is_joined (pre x : string) (rest : list string) :
  Action.last_is not_space pre = true ->
  forallb trimmed (x :: rest) = true ->
  Action.last_is not_space (pre ++ join "|" (x :: rest)) = true.
Proof.
  revert pre x. induction rest as [|y rest IH]; intros pre x Hpre Hall.
  - cbn in Hall. rewrite andb_true_r in Hall. cbn [join].
    unfold trimmed in Hall. apply orb_true_iff in Hall. destruct Hall as [He | Hx].
    + destruct x; [|discriminate]. now rewrite append_empty_r.
    + apply andb_true_iff in Hx. apply ListTokens.last_is_append_l, Hx.
  - cbn [forallb] in Hall. apply andb_true_iff in Hall. destruct Hall as [_ Hrest].
    change (join "|" (x :: y :: rest)) with (x ++ "|" ++ join "|" (y :: rest)).
    rewrite <- !append_assoc. apply IH; [|exact Hrest].
    apply ListTokens.last_is_append_l. reflexivity.
Qed.

Lemma trimmed_strip (f : string) : trimmed f = true -> strip f = f.
Proof.
  intros H. apply strip_fixed. unfold trimmed in H. apply orb_true_iff in H.
  destruct H as [H | H].
  - left. now destruct f.
  - right. apply andb_true_iff in H. exact H.
Qed.

Lemma strip_trimmed (s : string) : trimmed (strip s) = true.
Proof.
  unfold trimmed. destruct (strip_ends isspace s) as [E | [Hf Hl]].
  - unfold strip. now rewrite E.
  - unfold strip, not_space. now rewrite Hf, Hl, orb_true_r.
Qed.

(** X2.  Writing and reading a call agree: the line made of the directive, a
    tool name that is not empty and parameters, all without "|", newline or
    white space at their ends, is parsed to that name and those parameters. *)
Theorem function_call_round_trip (name : string) (params : list string) :
  is_empty name = false ->
  forallb plain_field (name :: params) = true ->
  Decision.get_decision (function_call name params) = (Some name, Some params).
Proof.
  intros Hname Hplain.
  assert (Hfields : forallb (Action.all_chars (fun c => negb (Ascii.eqb c "|")))
                            (name :: params) = true
                    /\ forallb one_line (name :: params) = true
                    /\ forallb trimmed (name :: params) = true).
  { clear Hname. induction (name :: params) as [|f fs IH]; [repeat split|].
    cbn in Hplain. apply andb_true_iff in Hplain. destruct Hplain as [Hf Hfs].
    unfold plain_field in Hf. apply andb_true_iff in Hf. destruct Hf as [Hf Ht].
    apply andb_true_iff in Hf. destruct Hf as [Hbar Hnl].
    destruct (IH Hfs) as (IH1 & IH2 & IH3). cbn. unfold one_line at 1.
    now rewrite Hbar, Hnl, Ht, IH1, IH2, IH3. }
  destruct Hfields as (Hbar & Hnl & Htrim).
  assert (Hfirst : Action.first_is not_space name = true
                   /\ Action.last_is not_space name = true).
  { cbn in Htrim. apply andb_true_iff in Htrim. destruct Htrim as [Ht _].
    unfold trimmed in Ht. rewrite Hname in Ht. cbn in Ht.
    apply andb_true_iff in Ht. exact Ht. }
  set (info := " " ++ join "|" (name :: params)).
  assert (Hinfo : split_ne "|" info = (" " ++ name, params)).
  { assert (H : split "|" info = (" " ++ name) :: params).
    { unfold info.
      replace (" " ++ join "|" (name :: params)) with (join "|" ((" " ++ name) :: params))
        by (destruct params; reflexivity).
      apply split_join. cbn in Hbar. apply andb_true_iff in Hbar.
      destruct Hbar as [Hn Hps]. constructor.
      - cbn. apply ListTokens.count_none, Hn.
      - apply Forall_forall. intros f Hf. apply ListTokens.count_none.
        rewrite forallb_forall in Hps. apply Hps, Hf. }
    unfold split in H. destruct (split_ne "|" info) as [h t]. now injection H as -> ->. }
  assert (Htext : strip (function_call name params) = function_call name params).
  { apply strip_fixed. right. split; [reflexivity|].
    unfold function_call.
    replace ("FUNCTION_CALL: " ++ join "|" (name :: params))
      with ("FUNCTION_CALL:" ++ " " ++ join "|" (name :: params)) by reflexivity.
    destruct params as [|x rest].
    - cbn [join]. apply ListTokens.last_is_append_l, ListTokens.last_is_append_l, Hfirst.
    - change (join "|" (name :: x :: rest)) with (name ++ "|" ++ join "|" (x :: rest)).
      rewrite <- !append_assoc. apply last_is_joined.
      + apply ListTokens.last_is_append_l. reflexivity.
      + cbn [forallb] in Htrim. apply andb_true_iff in Htrim. apply Htrim. }
  assert (Hone : split newline (function_call name params) = [function_call name params]).
  { apply split_one_line. unfold function_call.
    rewrite all_chars_append. apply andb_true_iff. split; [reflexivity|].
    clear -Hnl. revert name Hnl. induction params as [|x rest IH]; intros name Hnl.
    - cbn in *. now rewrite andb_true_r in Hnl.
    - change (join "|" (name :: x :: rest)) with (name ++ "|" ++ join "|" (x :: rest)).
      cbn [forallb] in Hnl. apply andb_true_iff in Hnl. destruct Hnl as [Hn Hrest].
      rewrite !all_chars_append. unfold one_line in Hn. rewrite Hn. cbn.
      apply IH, Hrest. }
  unfold Decision.get_decision. rewrite Hone. cbn [Decision.function_call_line].
  rewrite Htext.
  replace (startswith "FUNCTION_CALL:" (function_call name params)) with true
    by (unfold function_call, startswith; cbn; now destruct (join "|" (name :: params))).
  replace (snd (split_once ":" (function_call name params))) with (Some info)
    by reflexivity.
  rewrite Hinfo. f_equal.
  - f_equal. unfold strip, strip_by. cbn [append lstrip_by].
    change (isspace " ") with true. cbv iota.
    rewrite (lstrip_keep isspace name (proj1 Hfirst)).
    apply rstrip_keep, Hfirst.
  - f_equal. cbn [forallb] in Htrim. apply andb_true_iff in Htrim.
    destruct Htrim as [_ Hps]. clear -Hps. induction params as [|x rest IH]; [reflexivity|].
    cbn in *. apply andb_true_iff in Hps. destruct Hps as [Hx Hrest].
    now rewrite (trimmed_strip x Hx), (IH Hrest).
Qed.

(** X3.  What the parser gives back is clean: the tool name and every
    parameter are free of "|" and of newlines, and have no white space at
    their ends. *)
Theorem parsed_fields_are_plain (text name : string) (params : list string) :
  Decision.get_decision text = (Some name, Some params) ->
  forallb plain_field (name :: params) = true.
Proof.
  unfold Decision.get_decision.
  destruct (Decision.function_call_line (split newline text)) as [line|] eqn:Hline;
    [|destruct (contains "FINAL_ANSWER:" text); discriminate].
  destruct (function_call_line_found _ _ Hline) as (l & Hin & ->).
  assert (Hl : one_line l = true).
  { pose proof (split_ne_fields newline (fun c => negb (Ascii.eqb c newline)) text
                  eq_refl) as H.
    destruct H as [Hh Ht].
    { intros c. destruct (Ascii.eqb c newline); [now right | now left]. }
    unfold split in Hin. destruct (split_ne newline text) as [h t]. cbn in *.
    destruct Hin as [<- | Hin]; [exact Hh|].
    rewrite forallb_forall in Ht. apply Ht, Hin. }
  set (info := match snd (split_once ":" (strip l)) with
               | Some i => i
               | None => EmptyString
               end).
  assert (Hinfo : one_line info = true).
  { unfold info. destruct (snd (split_once ":" (strip l))) as [i|] eqn:E; [|reflexivity].
    eapply split_once_keeps; [|exact E]. apply all_chars_strip, Hl. }
  destruct (split_ne_fields "|" (fun c => negb (Ascii.eqb c "|")) info eq_refl)
    as [Hbar_h Hbar_t].
  { intros c. destruct (Ascii.eqb c "|"); [now right | now left]. }
  destruct (split_ne_keeps "|" _ info Hinfo) as [Hnl_h Hnl_t].
  destruct (split_ne "|" info) as [h t]. cbn [fst snd] in *.
  intros [= <- <-].
  assert (Hfield : forall f,
             Action.all_chars (fun c => negb (Ascii.eqb c "|")) f = true ->
             Action.all_chars (fun c => negb (Ascii.eqb c newline)) f = true ->
             plain_field (strip f) = true).
  { intros f Hb Hn. unfold plain_field. rewrite (strip_trimmed f). unfold strip.
    now rewrite (all_chars_strip isspace _ f Hb), (all_chars_strip isspace _ f Hn). }
  cbn [forallb]. rewrite (Hfield h Hbar_h Hnl_h). cbn [andb].
  rewrite forallb_forall in Hbar_t, Hnl_t. apply forallb_forall.
  intros f Hf. apply in_map_iff in Hf. destruct Hf as (g & <- & Hg).
  apply Hfield; [apply Hbar_t | apply Hnl_t]; exact Hg.
Qed.

End Parser.

(** ** The dispatcher: what reaches the tool *)

Section Invocation.

Import Action.

Lemma calls_of_events {A} (m : M A) : calls m = calls_of (fst m).
Proof. reflexivity. Qed.

Lemma calls_of_app (l l' : list event) :
  calls_of (l ++ l') = (calls_of l ++ calls_of l')%list.
Proof. apply flat_map_app. Qed.

Lemma calls_of_logs (evs : list event) :
  forallb is_log evs = true -> calls_of evs = [].
Proof.
  induction evs as [|[r | f a] evs IH]; cbn; [trivial | exact IH | discriminate].
Qed.

Lemma logs_mbind {A B} (m : M A) (k : A -> M B) :
  forallb is_log (fst m) = true ->
  (forall a, forallb is_log (fst (k a)) = true) ->
  forallb is_log (fst (mbind m k)) = true.
Proof.
  intros Hm Hk. destruct m as [evs [a | e]]; cbn in *; [|exact Hm].
  specialize (Hk a). destruct (k a) as [evs' r]. cbn in *.
  now rewrite forallb_app, Hm, Hk.
Qed.

Lemma single_param_value_logs (v : value) :
  forallb is_log (fst (single_param_value v)) = true.
Proof.
  unfold single_param_value. apply logs_mbind; [reflexivity|]. intros _.
  destruct v; try reflexivity.
  destruct (is_list_string s); [reflexivity|].
  destruct (PyStr.startswith "{" s && PyStr.contains (PyStr.quoted "numbers") s);
    [|reflexivity].
  destruct (Json.loads s) as [data | e].
  - destruct data; reflexivity.
  - destruct (exc_class e); reflexivity.
Qed.

(** A normalization invokes nothing: its events are records of the log. *)
Lemma normalize_logs (func_name : string) (sig_parameters : list string)
      (params : raw_params) :
  forallb is_log (fst (normalize func_name sig_parameters params)) = true.
Proof.
  unfold normalize. destruct params as [l | d]; [|reflexivity].
  set (names := filter _ sig_parameters).
  assert (Hgeneral : forallb is_log
            (fst (if negb (List.length l =? List.length names)
                  then raise (mkExc ValueError
                                ("Expected " ++ PyStr.of_nat (List.length names)
                                   ++ " parameters for " ++ func_name
                                   ++ ", got " ++ PyStr.of_nat (List.length l)))
                  else ret (bind_positional names l []))) = true).
  { destruct (negb _); reflexivity. }
  destruct (String.eqb func_name "int_list_to_exponential_sum"); [|exact Hgeneral].
  destruct names as [|name [|name' names]]; try exact Hgeneral.
  repeat (apply logs_mbind; [reflexivity|]; intros _).
  apply logs_mbind; [|intros a; apply logs_mbind; [reflexivity | reflexivity]].
  destruct (1 <? List.length l).
  - apply logs_mbind; reflexivity.
  - destruct l as [|v l]; [reflexivity|].
    apply logs_mbind; [apply single_param_value_logs | reflexivity].
Qed.

Lemma execute_calls (func_name : string) (t : tool) (a : arguments) :
  calls_of (fst (execute func_name t a)) = [(func_name, a)].
Proof.
  unfold execute.
  destruct (iscoroutinefunction t); destruct (call t a) as [v | e]; cbn.
  - reflexivity.
  - destruct (isinstance_Exception (exc_class e)); reflexivity.
  - destruct v; try reflexivity. destruct awaited as [v | e]; cbn; [reflexivity|].
    destruct (isinstance_Exception (exc_class e)); reflexivity.
  - destruct (isinstance_Exception (exc_class e)); reflexivity.
Qed.

Variable func_map : list (string * tool).

Lemma act_calls_resolved (func_name : string) (t : tool) (params : raw_params)
        (evs : list event) (a : arguments) :
  PyDict.get func_map func_name = Some t ->
  normalize func_name (parameters t) params = (evs, Return a) ->
  calls (act func_map func_name params) = [(func_name, a)].
Proof.
  intros Hget Hnorm. rewrite (act_resolved _ _ _ _ _ _ Hget Hnorm).
  pose proof (execute_calls func_name t a) as Hexec.
  pose proof (normalize_logs func_name (parameters t) params) as Hlogs.
  rewrite Hnorm in Hlogs. cbn [fst] in Hlogs.
  destruct (execute func_name t a) as [evs' r]. cbn [fst] in Hexec.
  rewrite calls_of_events. unfold try_except_Exception.
  destruct r as [v | e]; cbn [fst].
  - rewrite !calls_of_app, (calls_of_logs evs Hlogs), Hexec. reflexivity.
  - destruct (isinstance_Exception (exc_class e));
      cbn [fst tell raise mbind];
      rewrite !calls_of_app, (calls_of_logs evs Hlogs), Hexec; reflexivity.
Qed.

Lemma act_returns_resolved (func_name : string) (params : raw_params) (v : value) :
  outcome (act func_map func_name params) = Return v ->
  exists t evs a,
    PyDict.get func_map func_name = Some t
    /\ normalize func_name (parameters t) params = (evs, Return a).
Proof.
  unfold outcome, act. destruct (PyDict.get func_map func_name) as [t|]; [|discriminate].
  cbn [ret mbind].
  destruct (normalize func_name (parameters t) params) as [evs [a | e]] eqn:Hnorm.
  - intros _. exists t, evs, a. split; [reflexivity | exact Hnorm].
  - cbn. destruct (isinstance_Exception (exc_class e)); discriminate.
Qed.

Lemma act_calls_at_most_once (func_name : string) (params : raw_params) :
  List.length (calls (act func_map func_name params)) <= 1.
Proof.
  destruct (PyDict.get func_map func_name) as [t|] eqn:Hget.
  - destruct (normalize func_name (parameters t) params) as [evs [a | e]] eqn:Hnorm.
    + rewrite (act_calls_resolved _ _ _ _ _ Hget Hnorm). cbn. lia.
    + pose proof (normalize_logs func_name (parameters t) params) as Hlogs.
      rewrite Hnorm in Hlogs. cbn [fst] in Hlogs.
      rewrite calls_of_events. unfold act. rewrite Hget. cbn [ret mbind].
      rewrite Hnorm. cbn. destruct (isinstance_Exception (exc_class e)); cbn [fst].
      * change (evs ++ [] ++ [Log (ErrorInActMethod func_name e)])%list
          with (evs ++ [Log (ErrorInActMethod func_name e)])%list.
        rewrite calls_of_app, (calls_of_logs evs Hlogs). cbn. lia.
      * rewrite (calls_of_logs evs Hlogs). cbn. lia.
  - rewrite calls_of_events. unfold act. rewrite Hget. cbn. lia.
Qed.

(** X4.  Once the tool is resolved and its arguments are normalized, [act]
    invokes that tool, and nothing else, exactly once, with exactly those
    arguments, whether the tool then returns or raises. *)
Theorem act_invokes_once (func_name : string) (t : tool) (params : raw_params)
        (evs : list event) (a : arguments) :
  PyDict.get func_map func_name = Some t ->
  normalize func_name (parameters t) params = (evs, Return a) ->
  calls (act func_map func_name params) = [(func_name, a)].
Proof. apply act_calls_resolved. Qed.

(** X5.  When the normalization of the parameters fails, [act] raises the
    exception of the normalization after logging it with the tool name, and
    the tool is not invoked. *)
Theorem act_rejects_before_calling (func_name : string) (t : tool)
        (params : raw_params) (evs : list event) (e : exc) :
  PyDict.get func_map func_name = Some t ->
  normalize func_name (parameters t) params = (evs, Raise e) ->
  isinstance_Exception (exc_class e) = true ->
  act func_map func_name params
  = ((evs ++ [Log (ErrorInActMethod func_name e)])%list, Raise e)
  /\ calls (act func_map func_name params) = [].
Proof.
  intros Hget Hnorm Hexc.
  assert (Hact : act func_map func_name params
                 = ((evs ++ [Log (ErrorInActMethod func_name e)])%list, Raise e)).
  { unfold act. rewrite Hget. cbn [ret mbind]. rewrite Hnorm. cbn. rewrite Hexc.
    reflexivity. }
  split; [exact Hact|]. rewrite Hact, calls_of_events. cbn [fst].
  pose proof (normalize_logs func_name (parameters t) params) as Hlogs.
  rewrite Hnorm in Hlogs. cbn [fst] in Hlogs.
  rewrite calls_of_app, (calls_of_logs evs Hlogs). reflexivity.
Qed.

(** X6.  Outside the case of [int_list_to_exponential_sum] with one
    parameter, a number of tokens that differs from the number of parameters
    of the tool, fewer as well as more, makes [act] fail with the
    [ValueError] that tells both numbers; the tool is not invoked. *)
Theorem act_wrong_token_count (func_name : string) (t : tool) (tokens : list value) :
  PyDict.get func_map func_name = Some t ->
  String.eqb func_name "int_list_to_exponential_sum" = false
  \/ List.length (filter (fun n => negb (String.eqb n "self")) (parameters t)) <> 1 ->
  List.length tokens
  <> List.length (filter (fun n => negb (String.eqb n "self")) (parameters t)) ->
  outcome (act func_map func_name (ParamList tokens))
  = Raise (mkExc ValueError
             ("Expected "
                ++ PyStr.of_nat
                     (List.length (filter (fun n => negb (String.eqb n "self"))
                                          (parameters t)))
                ++ " parameters for " ++ func_name ++ ", got "
                ++ PyStr.of_nat (List.length tokens)))
  /\ calls (act func_map func_name (ParamList tokens)) = [].
Proof.
  intros Hget Hcase Hlen.
  set (names := filter (fun n => negb (String.eqb n "self")) (parameters t)) in *.
  set (e := mkExc ValueError
              ("Expected " ++ PyStr.of_nat (List.length names) ++ " parameters for "
                 ++ func_name ++ ", got " ++ PyStr.of_nat (List.length tokens))).
  assert (Hnorm : normalize func_name (parameters t) (ParamList tokens) = ([], Raise e)).
  { unfold normalize. fold names. apply Nat.eqb_neq in Hlen.
    assert (Hgeneral : (if negb (List.length tokens =? List.length names)
                        then raise e else ret (bind_positional names tokens []))
                       = ([], Raise e)).
    { rewrite Hlen. reflexivity. }
    destruct (String.eqb func_name "int_list_to_exponential_sum") eqn:Hname;
      [|exact Hgeneral].
    destruct Hcase as [Hcase | Hcase]; [discriminate|].
    destruct names as [|n [|n' names']]; try exact Hgeneral.
    exfalso. apply Hcase. reflexivity. }
  unfold outcome, calls, events, act. rewrite Hget. cbn [ret mbind].
  rewrite Hnorm. split; reflexivity.
Qed.

(** X7.  [int_list_to_exponential_sum] called with no token at all: the
    special case reads the first token of an empty list, and [act] fails
    with an [IndexError], not with the error on the number of parameters;
    the tool is not invoked. *)
Theorem act_exponential_sum_without_token (t : tool) (name : string) :
  PyDict.get func_map "int_list_to_exponential_sum" = Some t ->
  filter (fun n => negb (String.eqb n "self")) (parameters t) = [name] ->
  outcome (act func_map "int_list_to_exponential_sum" (ParamList []))
  = Raise (mkExc IndexError "list index out of range")
  /\ calls (act func_map "int_list_to_exponential_sum" (ParamList [])) = [].
Proof.
  intros Hget Hsig. unfold outcome, calls, events, act. rewrite Hget.
  cbn [ret mbind]. unfold normalize. rewrite Hsig. split; reflexivity.
Qed.

End Invocation.

(** ** The argument normalizer: what it lets through *)

Section Arguments.

Import Action PyStrFacts.

Lemma set_keeps_keys (known : string -> bool) (acc : arguments) (k : string) (v : value) :
  forallb (fun kv => known (fst kv)) acc = true ->
  known k = true ->
  forallb (fun kv => known (fst kv)) (PyDict.set acc k v) = true.
Proof.
  intros Hacc Hk. induction acc as [|[k' v'] acc IH]; cbn in *; [now rewrite Hk|].
  apply andb_true_iff in Hacc. destruct Hacc as [Hk' Hacc].
  destruct (String.eqb k k'); cbn; [now rewrite Hk, Hacc | now rewrite Hk', IH].
Qed.

Lemma bind_named_keys (func_name : string) (sig_parameters : list string)
      (d acc a : arguments) :
  forallb (fun kv => PyDict.mem (fst kv) sig_parameters) acc = true ->
  bind_named func_name sig_parameters d acc = Return a ->
  forallb (fun kv => PyDict.mem (fst kv) sig_parameters) a = true.
Proof.
  revert acc. induction d as [|[k v] d IH]; intros acc Hacc; cbn.
  - now intros [= <-].
  - destruct (PyDict.mem k sig_parameters) eqn:Hk; [|discriminate].
    apply IH. apply (set_keeps_keys (fun n => PyDict.mem n sig_parameters)); assumption.
Qed.

Lemma bind_positional_keys (known : string -> bool) (names : list string)
      (tokens : list value) (acc : arguments) :
  forallb (fun kv => known (fst kv)) acc = true ->
  forallb known names = true ->
  forallb (fun kv => known (fst kv)) (bind_positional names tokens acc) = true.
Proof.
  revert tokens acc. induction names as [|n names IH]; intros tokens acc Hacc Hnames;
    [exact Hacc|].
  destruct tokens as [|v tokens]; [exact Hacc|].
  cbn in Hnames. apply andb_true_iff in Hnames. destruct Hnames as [Hn Hnames].
  cbn [bind_positional]. apply IH; [|exact Hnames].
  apply set_keeps_keys; assumption.
Qed.

Lemma filtered_names_known (sig_parameters : list string) :
  forallb (fun n => PyDict.mem n sig_parameters)
          (filter (fun n => negb (String.eqb n "self")) sig_parameters) = true.
Proof.
  apply forallb_forall. intros n Hn. apply filter_In in Hn. destruct Hn as [Hn _].
  unfold PyDict.mem. apply existsb_exists. exists n. split; [exact Hn|].
  apply String.eqb_refl.
Qed.

(** X8.  Whatever the raw parameters are, a list of tokens or a dictionary,
    the arguments that the normalization produces are named after parameters
    of the signature only: the tool is never handed a keyword that it does
    not declare. *)
Theorem arguments_are_parameters (func_name : string) (sig_parameters : list string)
        (params : raw_params) (evs : list event) (a : arguments) :
  normalize func_name sig_parameters params = (evs, Return a) ->
  forallb (fun kv => PyDict.mem (fst kv) sig_parameters) a = true.
Proof.
  unfold normalize. destruct params as [l | d].
  - pose proof (filtered_names_known sig_parameters) as Hknown.
    set (names := filter _ sig_parameters) in *.
    assert (Hgeneral :
              (if negb (List.length l =? List.length names)
               then raise (mkExc ValueError
                             ("Expected " ++ PyStr.of_nat (List.length names)
                                ++ " parameters for " ++ func_name
                                ++ ", got " ++ PyStr.of_nat (List.length l)))
               else ret (bind_positional names l [])) = (evs, Return a) ->
              forallb (fun kv => PyDict.mem (fst kv) sig_parameters) a = true).
    { destruct (negb _); [discriminate|]. intros [= _ <-].
      apply (bind_positional_keys (fun n => PyDict.mem n sig_parameters));
        [reflexivity | exact Hknown]. }
    destruct (String.eqb func_name "int_list_to_exponential_sum"); [|exact Hgeneral].
    destruct names as [|name [|name' names]]; try exact Hgeneral.
    cbn in Hknown. rewrite andb_true_r in Hknown.
    cbn [tell mbind app].
    destruct (1 <? List.length l).
    + cbn. intros [= _ <-]. cbn. now rewrite Hknown.
    + destruct l as [|v l]; [discriminate|].
      destruct (single_param_value v) as [evs' [v' | e]]; cbn; [|discriminate].
      intros [= _ <-]. cbn. now rewrite Hknown.
  - unfold lift. intros [= _ H]. eapply bind_named_keys; [|exact H]. reflexivity.
Qed.

Lemma starts_with_brace (s : string) :
  PyStr.startswith "{" s = true -> is_list_string s = false.
Proof.
  unfold is_list_string, PyStr.startswith. destruct s as [|c s]; [discriminate|].
  destruct c as [[] [] [] [] [] [] [] []]; cbn; intros H; try discriminate H;
    reflexivity.
Qed.

(** X9.  The single token of [int_list_to_exponential_sum] that starts with
    "{" and holds ["numbers"]: when it parses to a JSON object it is bound
    as the value of its [numbers] entry, or as the empty list when it has
    none; when it does not parse, the error is logged and not raised, and the
    token is bound as the string it is. *)
Theorem json_token_bound (sig_parameters : list string) (name s : string) :
  filter (fun n => negb (String.eqb n "self")) sig_parameters = [name] ->
  PyStr.startswith "{" s = true ->
  PyStr.contains (PyStr.quoted "numbers") s = true ->
  (forall data,
      Json.loads s = Return (VDict data) ->
      outcome (normalize "int_list_to_exponential_sum" sig_parameters (ParamList [VStr s]))
      = Return [(name, match PyDict.get data "numbers" with
                       | Some numbers => numbers
                       | None => VList []
                       end)])
  /\ (forall e,
        Json.loads s = Raise e ->
        exc_class e = JSONDecodeError ->
        normalize "int_list_to_exponential_sum" sig_parameters (ParamList [VStr s])
        = ([Log SpecialHandling; Log (RawParams [VStr s]); Log (ParamCount 1);
            Log (SingleParamValue (VStr s)); Log (FailedToParseJSON e);
            Log (FinalArgumentsSpecial [(name, VStr s)])],
           Return [(name, VStr s)])).
Proof.
  intros Hsig Hbrace Hnumbers.
  pose proof (starts_with_brace s Hbrace) as Hlist.
  split.
  - intros data Hloads. unfold outcome, normalize. rewrite Hsig.
    unfold single_param_value. rewrite Hlist, Hbrace, Hnumbers, Hloads. reflexivity.
  - intros e Hloads Hclass. unfold normalize. rewrite Hsig.
    unfold single_param_value. rewrite Hlist, Hbrace, Hnumbers, Hloads, Hclass.
    reflexivity.
Qed.

End Arguments.

(** ** The tools *)

Section Tools.

Import Action PyStrFacts ListTokens.

Lemma ord_characters (l : list ascii) :
  map_result ord (map (fun c => VStr (String c EmptyString)) l)
  = Return (map (fun c => VInt (Z.of_nat (nat_of_ascii c))) l).
Proof. induction l as [|c l IH]; cbn; [reflexivity | now rewrite IH]. Qed.

Lemma length_list_ascii (s : string) :
  List.length (list_ascii_of_string s) = String.length s.
Proof. induction s as [|c s IH]; cbn; [reflexivity | now rewrite IH]. Qed.

(** X10.  On a string that is not wrapped in brackets,
    [strings_to_chars_to_int] never fails: called through [act] with that
    one token it returns the code points of the characters, one for each
    character and in their order. *)
Theorem strings_to_chars_to_int_codes (smtp_send : value -> result unit) (s : string) :
  is_list_string s = false ->
  act (func_map smtp_send) "strings_to_chars_to_int" (ParamList [VStr s])
  = ([Log (FinalArguments [("text", VStr s)]);
      Log (CallingTool "strings_to_chars_to_int");
      Called "strings_to_chars_to_int" [("text", VStr s)]],
     Return (VList (code_points s)))
  /\ List.length (code_points s) = String.length s.
Proof.
  intros Hlist. split.
  - assert (Htool : strings_to_chars_to_int [("text", VStr s)]
                    = Return (VList (code_points s))).
    { unfold strings_to_chars_to_int, code_points. cbn [bind_one PyDict.keys map fst filter
        String.eqb Ascii.eqb Bool.eqb negb PyDict.get bind iterate].
      cbn. rewrite ord_characters. reflexivity. }
    unfold act. cbn [func_map PyDict.get String.eqb Ascii.eqb Bool.eqb].
    cbn [ret mbind parameters]. unfold normalize.
    cbn [filter String.eqb Ascii.eqb Bool.eqb negb List.length Nat.eqb bind_positional].
    cbn [bind_token]. rewrite Hlist. cbn [PyDict.set ret mbind tell app].
    unfold execute. cbn [iscoroutinefunction call tell mbind lift app].
    rewrite Htool. reflexivity.
  - unfold code_points. rewrite length_map. apply length_list_ascii.
Qed.

Lemma contains_separator (a b : string) : PyStr.contains "," (a ++ "," ++ b) = true.
Proof.
  induction a as [|c a IH].
  - cbn. destruct b; reflexivity.
  - cbn [append PyStr.contains]. change ("," ++ b) with (String "," b) in IH.
    rewrite IH. apply orb_true_r.
Qed.

Lemma not_bracketed (s : string) :
  first_is (fun c => negb (is_bracket c)) s = true -> is_list_string s = false.
Proof.
  unfold is_list_string, PyStr.startswith. destruct s as [|c s]; [discriminate|].
  destruct c as [[] [] [] [] [] [] [] []]; cbn; intros H; try discriminate H;
    reflexivity.
Qed.

(** X11.  The third form that [int_list_to_exponential_sum] accepts for a
    string: two items or more separated by commas, without brackets, each
    possibly between quotes and white space.  When the string does not start
    with "{", the value of [int_list] before the calculation is the list of
    the texts of the items. *)
Theorem comma_separated_items (i j : item) (items : list item) :
  forallb well_formed (i :: j :: items) = true ->
  PyStr.startswith "{" (PyStr.join "," (map written (i :: j :: items))) = false ->
  parse_int_list (VStr (PyStr.join "," (map written (i :: j :: items))))
  = Return (VList (map (fun k => VStr (text k)) (i :: j :: items))).
Proof.
  intros Hwf Hbrace.
  assert (Hitems : Forall shaped (i :: j :: items)).
  { apply Forall_forall. intros k Hk. apply well_formed_shaped.
    rewrite forallb_forall in Hwf. apply Hwf, Hk. }
  set (s := PyStr.join "," (map written (i :: j :: items))) in *.
  assert (Hlist : is_list_string s = false).
  { apply not_bracketed. unfold s. cbn [map].
    apply first_is_join, written_first_not_bracket. now inversion Hitems. }
  assert (Hcomma : PyStr.contains "," s = true).
  { unfold s. cbn [map].
    change (PyStr.join "," (written i :: written j :: map written items))
      with (written i ++ "," ++ PyStr.join "," (written j :: map written items)).
    apply contains_separator. }
  unfold parse_int_list. rewrite Hbrace, Hlist, Hcomma. unfold s.
  change (map written (i :: j :: items))
    with (written i :: map written (j :: items)).
  rewrite (split_join "," (written i) (map written (j :: items))).
  - do 2 f_equal.
    change (written i :: map written (j :: items)) with (map written (i :: j :: items)).
    rewrite map_map. apply map_ext_in. intros k Hk.
    rewrite strip_item_written; [reflexivity|].
    rewrite Forall_forall in Hitems. apply Hitems, Hk.
  - change (written i :: map written (j :: items)) with (map written (i :: j :: items)).
    apply Forall_map. eapply Forall_impl; [|exact Hitems].
    intros k Hk. apply written_no_comma, Hk.
Qed.

Lemma closers_repeat (c : ascii) (n : nat) :
  is_closer c = true -> all_chars is_closer (PyStr.repeat_char c n) = true.
Proof.
  intros H. induction n as [|n IH]; cbn [all_chars PyStr.repeat_char];
    [reflexivity | now rewrite H, IH].
Qed.

(** X12.  The completion of a JSON text only appends closing characters: its
    result is the text followed by "]" and "}" characters; a text that ends
    with "}" is left as it is; and completing a completed text changes
    nothing. *)
Theorem complete_json_appends_closers (s : string) :
  (exists closers,
      complete_json s = s ++ closers /\ all_chars is_closer closers = true)
  /\ (PyStr.endswith "}" s = true -> complete_json s = s)
  /\ complete_json (complete_json s) = complete_json s.
Proof.
  assert (Hcases : complete_json s = s \/ complete_json s = with_closers s).
  { unfold complete_json. destruct (negb (PyStr.endswith "}" s)); [|now left].
    destruct (PyStr.contains _ s && _); [now right | now left]. }
  split; [|split].
  - destruct Hcases as [-> | ->].
    + exists EmptyString. split; [now rewrite append_empty_r | reflexivity].
    + unfold with_closers. eexists. split; [reflexivity|].
      rewrite StripFacts.all_chars_append.
      now rewrite !closers_repeat by reflexivity.
  - intros Hend. unfold complete_json. now rewrite Hend.
  - destruct Hcases as [H | H]; rewrite H.
    + exact H.
    + apply complete_json_with_closers.
Qed.

(** X13.  [send_email] reports the failure of the exchange with the mail
    server in its result instead of raising it: given its [text], and
    whatever exception deriving from [Exception] the exchange raises, it
    returns a dictionary with one text content, which says that the mail was
    sent or carries the text of the exception. *)
Theorem send_email_reports_in_band (smtp_send : value -> result unit) (text : value) :
  (forall e, smtp_send text = Raise e -> isinstance_Exception (exc_class e) = true) ->
  exists message,
    send_email smtp_send [("text", text)]
    = Return (VDict [("content", VList [VTextContent "text" message])])
    /\ ((exists u, smtp_send text = Return u) -> message = "Email sent successfully!")
    /\ (forall e, smtp_send text = Raise e ->
                  message = "Error sending mail: " ++ exc_str e).
Proof.
  intros Hexc. unfold send_email.
  cbn [bind_one PyDict.keys map fst filter String.eqb Ascii.eqb Bool.eqb negb
       PyDict.get bind].
  cbn. destruct (smtp_send text) as [u | e] eqn:Hsend.
  - exists "Email sent successfully!". repeat split; [discriminate].
  - rewrite (Hexc e eq_refl). exists ("Error sending mail: " ++ exc_str e).
    split; [reflexivity|]. split.
    + intros [u Hu]. discriminate Hu.
    + intros e' [= <-]. reflexivity.
Qed.

Lemma fib_recurrence (k : nat) : fib (S (S k)) = (fib k + fib (S k))%Z.
Proof.
  unfold fib. cbn [fib_pair]. destruct (fib_pair k) as [a b]. reflexivity.
Qed.

Lemma fib_loop (k : nat) :
  Nat.iter k fib_append [0%Z; 1%Z] = map fib (seq 0 (k + 2)).
Proof.
  induction k as [|k IH]; [reflexivity|].
  rewrite Nat.iter_succ, IH.
  unfold fib_append.
  replace (S k + 2) with (S (k + 2)) by lia.
  rewrite (seq_S (k + 2) 0), map_app. cbn [map]. f_equal.
  replace (k + 2) with (S (k + 1)) by lia.
  rewrite (seq_S (k + 1) 0), map_app. cbn [map].
  rewrite last_last, removelast_last.
  replace (k + 1) with (S k) by lia.
  rewrite (seq_S k 0), map_app. cbn [map]. rewrite last_last.
  cbn [Nat.add]. rewrite fib_recurrence. f_equal. lia.
Qed.

(** X14.  [fibonacci_numbers], on the integer that its argument converts to,
    returns the first [n] Fibonacci numbers F(0), ..., F(n-1), where F(0) = 0,
    F(1) = 1 and F(k+2) = F(k) + F(k+1): exactly [n] numbers when [n] is
    positive, the empty list when it is zero or negative. *)
Theorem fibonacci_numbers_first (n : Z) :
  fibonacci_numbers n = map fib (seq 0 (Z.to_nat n))
  /\ List.length (fibonacci_numbers n) = Z.to_nat n
  /\ fib 0 = 0%Z /\ fib 1 = 1%Z
  /\ (forall k, fib (S (S k)) = (fib k + fib (S k))%Z).
Proof.
  assert (H : fibonacci_numbers n = map fib (seq 0 (Z.to_nat n))).
  { unfold fibonacci_numbers. destruct (n <=? 0)%Z eqn:E.
    - apply Z.leb_le in E. replace (Z.to_nat n) with 0 by lia. reflexivity.
    - apply Z.leb_gt in E. rewrite fib_loop.
      destruct (Z.to_nat n) as [|[|m]] eqn:En; [lia | |].
      + replace (Z.to_nat (n - 2)) with 0 by lia. reflexivity.
      + replace (Z.to_nat (n - 2) + 2) with (S (S m)) by lia.
        rewrite <- (length_seq (S (S m)) 0) at 1. rewrite <- (length_map fib).
        apply firstn_all. }
  split; [exact H|]. split.
  - now rewrite H, length_map, length_seq.
  - repeat split. apply fib_recurrence.
Qed.

End Tools.

(** ** The iteration loop: what a run leaves behind *)

Section Runs.

Import Main.

Variable func_map : list (string * Action.tool).
Variable generate_decision_response : list trace_entry -> result string.
Variable facts_str : result string.

#[local] Abbreviation body := (Main.body func_map generate_decision_response facts_str).
#[local] Abbreviation while := (Main.while func_map generate_decision_response facts_str).

Lemma invocations_extended (st : state) (evs : list Action.event) (n : nat)
      (r : option value) (trace : list trace_entry) :
  invocations (mkState n r trace (dispatched st ++ evs))
  = (invocations st ++ Action.calls_of evs)%list.
Proof. unfold invocations, Action.calls_of. cbn [dispatched]. apply flat_map_app. Qed.

(** What one pass adds to the invocations. *)
Lemma body_invocations (st : state) :
  match body st with
  | Next st' => List.length (invocations st') = S (List.length (invocations st))
  | BreakFinalAnswer st' => invocations st' = invocations st
  | BreakError st' | Escapes _ st' =>
      List.length (invocations st) <= List.length (invocations st')
      /\ List.length (invocations st') <= S (List.length (invocations st))
  end.
Proof.
  unfold Main.body.
  destruct (match last_response st with None => facts_str | Some _ => Return EmptyString end);
    [|lia].
  destruct (generate_decision_response (iteration_response st)) as [text | e].
  - destruct (Decision.get_decision text) as [func_name params].
    destruct (truthy func_name) as [name|]; [|reflexivity].
    set (run := Action.act func_map name _).
    pose proof (act_calls_at_most_once func_map name
                  (Action.ParamList
                     (map VStr match params with Some l => l | None => [] end))) as Hmost.
    fold run in Hmost.
    destruct (Action.outcome run) as [result | e] eqn:Hrun.
    + cbn [dispatched iteration last_response iteration_response].
      destruct (act_returns_resolved func_map name _ result Hrun) as (t & evs & args & Hget & Hnorm).
      pose proof (act_calls_resolved func_map name t _ evs args Hget Hnorm) as Hcalls.
      fold run in Hcalls.
      rewrite (invocations_extended st (Action.events run)), length_app.
      unfold Action.calls_of. unfold Action.calls in Hcalls. rewrite Hcalls.
      cbn. lia.
    + assert (Hbound : forall n r trace,
                 List.length (invocations st)
                 <= List.length (invocations
                                   (mkState n r trace (dispatched st ++ Action.events run)))
                 /\ List.length (invocations
                                   (mkState n r trace (dispatched st ++ Action.events run)))
                    <= S (List.length (invocations st))).
      { intros n r trace. rewrite invocations_extended, length_app.
        unfold Action.calls_of. unfold Action.calls in Hmost. lia. }
      destruct (isinstance_Exception (exc_class e)); apply Hbound.
  - destruct (isinstance_Exception (exc_class e));
      unfold Main.append, invocations; cbn [dispatched]; lia.
Qed.

(** A pass that an exception leaves keeps the trace. *)
Lemma body_escapes (st : state) :
  match body st with
  | Escapes _ st' => iteration_response st' = iteration_response st
  | _ => True
  end.
Proof.
  unfold Main.body.
  destruct (match last_response st with None => facts_str | Some _ => Return EmptyString end);
    [|reflexivity].
  destruct (generate_decision_response (iteration_response st)) as [text | e].
  - destruct (Decision.get_decision text) as [func_name params].
    destruct (truthy func_name) as [name|]; [|exact I].
    destruct (Action.outcome _) as [result | e]; [exact I|].
    destruct (isinstance_Exception (exc_class e)); [exact I | reflexivity].
  - destruct (isinstance_Exception (exc_class e)); [exact I | reflexivity].
Qed.

(** A property of the states that every pass keeps is kept by the loop. *)
Lemma while_keeps (P : state -> Prop) (Q : stop -> state -> Prop) :
  (forall st, P st -> ~ iteration st < max_iterations -> Q ConditionFalse st) ->
  (forall st, P st -> iteration st < max_iterations ->
              match body st with
              | Next st' => P st'
              | BreakFinalAnswer st' => Q FinalAnswer st'
              | BreakError st' => Q Failed st'
              | Escapes e st' => Q (Escaped e) st'
              end) ->
  forall fuel st st' how,
    P st -> while fuel st = Some (st', how) -> Q how st'.
Proof.
  intros Hexit Hpass. induction fuel as [|fuel IH]; intros st st' how HP;
    cbn [Main.while]; destruct (iteration st <? max_iterations) eqn:Hcond.
  - discriminate.
  - intros [= <- <-]. apply Hexit; [exact HP|]. apply Nat.ltb_ge in Hcond. lia.
  - apply Nat.ltb_lt in Hcond. specialize (Hpass st HP Hcond).
    destruct (body st) as [s | s | s | e s].
    + apply IH, Hpass.
    + intros [= <- <-]. exact Hpass.
    + intros [= <- <-]. exact Hpass.
    + intros [= <- <-]. exact Hpass.
  - intros [= <- <-]. apply Hexit; [exact HP|]. apply Nat.ltb_ge in Hcond. lia.
Qed.

Lemma call_numbers_app (l l' : list trace_entry) :
  call_numbers (l ++ l') = (call_numbers l ++ call_numbers l')%list.
Proof. apply flat_map_app. Qed.

(** X15.  However a run ends, the records of calls of its trace are numbered
    1, 2, ... in their order, and the last number is the final value of the
    iteration counter: one record for each completed iteration, none
    missing, none repeated. *)
Theorem call_records_are_numbered :
  exists st how,
    while max_iterations reset_state = Some (st, how)
    /\ call_numbers (iteration_response st) = seq 1 (iteration st).
Proof.
  destruct (while_ends func_map generate_decision_response facts_str
              max_iterations reset_state) as (st & how & Hwhile & _).
  - split; reflexivity.
  - cbn [iteration reset_state]. lia.
  - cbn [iteration reset_state]. lia.
  - exists st, how. split; [exact Hwhile|].
    apply (while_keeps
             (fun s => call_numbers (iteration_response s) = seq 1 (iteration s))
             (fun _ s => call_numbers (iteration_response s) = seq 1 (iteration s)))
      with (fuel := max_iterations) (st := reset_state) (how := how);
      [ | | reflexivity | exact Hwhile].
    + intros s Hs _. exact Hs.
    + intros s Hs _.
      pose proof (body_cases func_map generate_decision_response facts_str s) as Hbody.
      pose proof (body_escapes s) as Hescapes.
      destruct (body s) as [s' | s' | s' | e s'].
      * destruct Hbody as [Hit (name & params & result & Htrace)].
        rewrite Htrace, call_numbers_app, Hs, Hit. cbn [call_numbers flat_map app].
        now rewrite seq_S.
      * destruct Hbody as [Hit (text & Htrace)].
        rewrite Htrace, call_numbers_app, Hs, Hit. cbn. now rewrite app_nil_r.
      * destruct Hbody as [Hit (n & e & Htrace)].
        rewrite Htrace, call_numbers_app, Hs, Hit. cbn. now rewrite app_nil_r.
      * rewrite Hescapes, Hbody. exact Hs.
Qed.

(** X16.  However a run ends, it has invoked registered callables at most
    [max_iterations] times: one invocation for each completed iteration,
    and at most one more, in the pass that an exception ended.  A run that
    ends by the budget or by a final answer invoked exactly as many
    callables as it counted iterations. *)
Theorem invocations_within_budget :
  exists st how,
    while max_iterations reset_state = Some (st, how)
    /\ List.length (invocations st) <= max_iterations
    /\ iteration st <= List.length (invocations st)
    /\ List.length (invocations st) <= S (iteration st)
    /\ match how with
       | ConditionFalse | FinalAnswer => List.length (invocations st) = iteration st
       | Failed | Escaped _ => True
       end.
Proof.
  destruct (while_ends func_map generate_decision_response facts_str
              max_iterations reset_state) as (st & how & Hwhile & _).
  - split; reflexivity.
  - cbn [iteration reset_state]. lia.
  - cbn [iteration reset_state]. lia.
  - exists st, how. split; [exact Hwhile|].
    apply (while_keeps
             (fun s => List.length (invocations s) = iteration s
                       /\ iteration s <= max_iterations)
             (fun how s =>
                List.length (invocations s) <= max_iterations
                /\ iteration s <= List.length (invocations s)
                /\ List.length (invocations s) <= S (iteration s)
                /\ match how with
                   | ConditionFalse | FinalAnswer =>
                       List.length (invocations s) = iteration s
                   | Failed | Escaped _ => True
                   end))
      with (fuel := max_iterations) (st := reset_state) (how := how);
      [ | | split; [reflexivity | cbn [iteration reset_state]; lia] | exact Hwhile].
    + intros s [Hlen Hle] _. repeat split; lia.
    + intros s [Hlen Hle] Hlt.
      pose proof (body_cases func_map generate_decision_response facts_str s) as Hbody.
      pose proof (body_invocations s) as Hinv.
      destruct (body s) as [s' | s' | s' | e s'].
      * destruct Hbody as [Hit _]. split; lia.
      * destruct Hbody as [Hit _]. rewrite Hinv, Hit. repeat split; lia.
      * destruct Hbody as [Hit _]. rewrite Hit. repeat split; lia.
      * rewrite Hbody. repeat split; lia.
Qed.

(** The prompt of a pass is built whenever the facts can be written. *)
Lemma prompt_built (st : state) :
  (last_response st = None -> exists s, facts_str = Return s) ->
  exists s,
    match last_response st with None => facts_str | Some _ => Return EmptyString end
    = Return s.
Proof. intros Hfacts. destruct (last_response st); [eauto | apply Hfacts; reflexivity]. Qed.

(** X17.  A failure is not retried: when the model raises an exception
    derived from [Exception], or names a tool whose dispatch raises one, the
    pass ends the run, whatever budget is left; the iteration is not
    counted, the last result is kept, and the trace gets one record with the
    number of the failed iteration and the exception. *)
Theorem failure_ends_the_run (st : state) (e : exc) :
  iteration st < max_iterations ->
  (last_response st = None -> exists s, facts_str = Return s) ->
  isinstance_Exception (exc_class e) = true ->
  (generate_decision_response (iteration_response st) = Raise e
   \/ exists text name params,
        generate_decision_response (iteration_response st) = Return text
        /\ Decision.get_decision text = (Some name, Some params)
        /\ PyStr.is_empty name = false
        /\ Action.outcome
             (Action.act func_map name (Action.ParamList (map VStr params)))
           = Raise e) ->
  forall fuel, exists st',
    while (S fuel) st = Some (st', Failed)
    /\ iteration st' = iteration st
    /\ last_response st' = last_response st
    /\ iteration_response st'
       = (iteration_response st ++ [ErrorRecord (iteration st + 1) e])%list.
Proof.
  intros Hit Hfacts Hexc Hfail fuel. cbn [Main.while].
  apply Nat.ltb_lt in Hit. rewrite Hit. unfold Main.body.
  destruct (prompt_built st Hfacts) as [s ->].
  destruct Hfail as [-> | (text & name & params & -> & -> & Hname & Hact)].
  - rewrite Hexc. eexists. split; [reflexivity|]. repeat split.
  - cbn [truthy]. rewrite Hname, Hact, Hexc.
    eexists. split; [reflexivity|]. repeat split.
Qed.

(** X18.  A directive that names no tool is not dispatched: when the parser
    answers the empty name (as for the line FUNCTION_CALL: |INDIA), the pass
    takes the text for a final answer, records it as such, invokes nothing
    and ends the run. *)
Theorem empty_name_ends_the_run (st : state) (text : string) (params : option (list string)) :
  iteration st < max_iterations ->
  (last_response st = None -> exists s, facts_str = Return s) ->
  generate_decision_response (iteration_response st) = Return text ->
  Decision.get_decision text = (Some EmptyString, params) ->
  forall fuel,
    while (S fuel) st = Some (append st (FinalAnswerRecord text), FinalAnswer)
    /\ invocations (append st (FinalAnswerRecord text)) = invocations st.
Proof.
  intros Hit Hfacts Htext Hparse fuel. cbn [Main.while].
  apply Nat.ltb_lt in Hit. rewrite Hit. unfold Main.body.
  destruct (prompt_built st Hfacts) as [s ->].
  rewrite Htext, Hparse. split; reflexivity.
Qed.

End Runs.

(** ** The text of the model *)

Section Perceiving.

Import Main.

(** X19.  What [generate_decision_response] returns is the empty string or a
    text with no white space at either end, so that stripping it again
    changes nothing; without a client it returns the empty string and does
    not look at what a generation would give; with a client an exception
    of the generation is raised unchanged. *)
Theorem decision_response_trimmed (use_client : bool) (generated : result Perception.response) :
  (forall text,
      Perception.generate_decision_response use_client generated = Return text ->
      Protocol.trimmed text = true /\ PyStr.strip text = text)
  /\ (use_client = false ->
      Perception.generate_decision_response use_client generated = Return EmptyString)
  /\ (forall e,
        use_client = true -> generated = Raise e ->
        Perception.generate_decision_response use_client generated = Raise e).
Proof.
  split; [|split].
  - intros text. unfold Perception.generate_decision_response.
    assert (Hempty : Protocol.trimmed EmptyString = true
                     /\ PyStr.strip EmptyString = EmptyString) by (split; reflexivity).
    destruct use_client; cbn [negb]; [|now intros [= <-]].
    destruct generated as [[|[t|]] | e]; cbn [bind]; try (now intros [= <-]).
    destruct (PyStr.is_empty t); intros [= <-]; [exact Hempty|].
    split; [apply strip_trimmed | apply trimmed_strip, strip_trimmed].
  - intros ->. reflexivity.
  - intros e -> ->. reflexivity.
Qed.

(** X20.  A model that gives nothing ends the run at once: when
    [generate_decision_response] returns the empty string (no client, no
    response, no text) the first pass records a final answer with the empty
    text, no tool is invoked, and no iteration is counted. *)
Theorem run_without_response (func_map : list (string * Action.tool))
        (use_client : bool) (generated : result Perception.response) (facts : string) :
  Perception.generate_decision_response use_client generated = Return EmptyString ->
  Main.while func_map
             (fun _ => Perception.generate_decision_response use_client generated)
             (Return facts) max_iterations reset_state
  = Some (mkState 0 None [FinalAnswerRecord EmptyString] [], FinalAnswer).
Proof.
  intros H. cbn [Main.while max_iterations reset_state iteration Nat.ltb Nat.leb].
  unfold Main.body. cbn [last_response reset_state]. rewrite H. reflexivity.
Qed.

End Perceiving.

(** ** One number for the exponential sum *)

Section SingleNumber.

Import Action.

Variable func_map : list (string * tool).
Variable exp_sum : value -> result value.

(** X21.  [int_list_to_exponential_sum] does not take one bare number: a
    single token that is a string without comma, not wrapped in brackets and
    not starting with "{" (such as 73) reaches the tool as it is, the tool
    raises the [ValueError] on the format before any calculation, and [act]
    raises it again. *)
Theorem act_exponential_sum_bare_string (s : string) :
  PyDict.get func_map "int_list_to_exponential_sum"
  = Some (mkTool ["int_list"] false (int_list_to_exponential_sum exp_sum)) ->
  PyStr.startswith "{" s = false ->
  is_list_string s = false ->
  PyStr.contains "," s = false ->
  outcome (act func_map "int_list_to_exponential_sum" (ParamList [VStr s]))
  = Raise (mkExc ValueError
             ("String input must be in list format [x,y,z] or JSON format. Got: '"
                ++ s ++ "'"))
  /\ calls (act func_map "int_list_to_exponential_sum" (ParamList [VStr s]))
     = [("int_list_to_exponential_sum", [("int_list", VStr s)])].
Proof.
  intros Hget Hbrace Hlist Hcomma.
  assert (Hnorm : normalize "int_list_to_exponential_sum" ["int_list"] (ParamList [VStr s])
                  = ([Log SpecialHandling; Log (RawParams [VStr s]); Log (ParamCount 1);
                      Log (SingleParamValue (VStr s));
                      Log (FinalArgumentsSpecial [("int_list", VStr s)])],
                     Return [("int_list", VStr s)])).
  { unfold normalize, single_param_value. cbn [String.eqb Ascii.eqb Bool.eqb filter negb
      List.length Nat.ltb Nat.leb]. rewrite Hlist, Hbrace. reflexivity. }
  assert (Hcall : int_list_to_exponential_sum exp_sum [("int_list", VStr s)]
                  = Raise (mkExc ValueError
                             ("String input must be in list format [x,y,z] or JSON format. Got: '"
                                ++ s ++ "'"))).
  { unfold int_list_to_exponential_sum. cbn [bind_one PyDict.keys map fst filter String.eqb
      Ascii.eqb Bool.eqb negb PyDict.get bind]. unfold parse_int_list.
    rewrite Hbrace, Hlist, Hcomma. reflexivity. }
  split.
  - unfold outcome, act. rewrite Hget. cbn [ret mbind parameters]. rewrite Hnorm.
    unfold execute. cbn -[int_list_to_exponential_sum String.append]. rewrite Hcall. reflexivity.
  - apply (act_calls_resolved func_map _ _ _ _ _ Hget Hnorm).
Qed.

End SingleNumber.

(** ** The further properties on samples *)

Section Samples.

Import Action.

Lemma function_call_round_trip_witness :
  PyStr.is_empty "strings_to_chars_to_int" = false
  /\ forallb Protocol.plain_field ["strings_to_chars_to_int"; "INDIA"] = true
  /\ Decision.get_decision "FUNCTION_CALL: strings_to_chars_to_int|INDIA"
     = (Some "strings_to_chars_to_int", Some ["INDIA"]).
Proof.
  refine (conj eq_refl (conj eq_refl
            (function_call_round_trip "strings_to_chars_to_int" ["INDIA"] eq_refl eq_refl))).
Defined.

Lemma first_directive_line_decides_witness :
  forallb Protocol.one_line
          (["Reasoning: lookup"] ++ "FUNCTION_CALL: add|1|2" :: ["FINAL_ANSWER: 3"]) = true
  /\ forallb (fun l => negb (Protocol.is_directive l)) ["Reasoning: lookup"] = true
  /\ Protocol.is_directive "FUNCTION_CALL: add|1|2" = true
  /\ Decision.get_decision
       (PyStr.join (String PyStr.newline EmptyString)
          (["Reasoning: lookup"] ++ "FUNCTION_CALL: add|1|2" :: ["FINAL_ANSWER: 3"]))
     = Decision.get_decision "FUNCTION_CALL: add|1|2".
Proof.
  refine (conj eq_refl (conj eq_refl (conj eq_refl
            (first_directive_line_decides ["Reasoning: lookup"] ["FINAL_ANSWER: 3"]
               "FUNCTION_CALL: add|1|2" eq_refl eq_refl eq_refl)))).
Defined.

Lemma parsed_fields_are_plain_witness :
  Decision.get_decision "  FUNCTION_CALL: add | 1 | 2 " = (Some "add", Some ["1"; "2"])
  /\ forallb Protocol.plain_field ["add"; "1"; "2"] = true.
Proof.
  refine (conj eq_refl
            (parsed_fields_are_plain "  FUNCTION_CALL: add | 1 | 2 " "add" ["1"; "2"] eq_refl)).
Defined.

Lemma arguments_are_parameters_witness :
  normalize "strings_to_chars_to_int" ["text"] (ParamList [VStr "['a', 'b']"])
  = ([], Return [("text", VList [VStr "a"; VStr "b"])])
  /\ forallb (fun kv => PyDict.mem (fst kv) ["text"])
             [("text", VList [VStr "a"; VStr "b"])] = true.
Proof.
  refine (conj eq_refl
            (arguments_are_parameters "strings_to_chars_to_int" ["text"]
               (ParamList [VStr "['a', 'b']"]) []
               [("text", VList [VStr "a"; VStr "b"])] eq_refl)).
Defined.

Lemma act_wrong_token_count_witness :
  PyDict.get (func_map mail_accepted) "send_email"
  = Some (mkTool ["text"] true (send_email mail_accepted))
  /\ outcome (act (func_map mail_accepted) "send_email" (ParamList [VStr "a"; VStr "b"]))
     = Raise (mkExc ValueError "Expected 1 parameters for send_email, got 2")
  /\ calls (act (func_map mail_accepted) "send_email" (ParamList [VStr "a"; VStr "b"])) = [].
Proof.
  refine (conj eq_refl
            (act_wrong_token_count (func_map mail_accepted) "send_email"
               (mkTool ["text"] true (send_email mail_accepted)) [VStr "a"; VStr "b"]
               eq_refl (or_introl eq_refl) _)).
  cbn. discriminate.
Defined.

Lemma act_rejects_before_calling_witness :
  PyDict.get (func_map mail_accepted) "send_email"
  = Some (mkTool ["text"] true (send_email mail_accepted))
  /\ normalize "send_email" ["text"] (ParamDict [("text", VStr "hi"); ("cc", VStr "x")])
     = ([], Raise (mkExc ValueError "Unknown parameter cc for send_email"))
  /\ act (func_map mail_accepted) "send_email"
         (ParamDict [("text", VStr "hi"); ("cc", VStr "x")])
     = ([Log (ErrorInActMethod "send_email"
                (mkExc ValueError "Unknown parameter cc for send_email"))],
        Raise (mkExc ValueError "Unknown parameter cc for send_email"))
  /\ calls (act (func_map mail_accepted) "send_email"
              (ParamDict [("text", VStr "hi"); ("cc", VStr "x")])) = [].
Proof.
  refine (conj eq_refl (conj eq_refl
            (act_rejects_before_calling (func_map mail_accepted) "send_email"
               (mkTool ["text"] true (send_email mail_accepted))
               (ParamDict [("text", VStr "hi"); ("cc", VStr "x")]) []
               (mkExc ValueError "Unknown parameter cc for send_email")
               eq_refl eq_refl eq_refl))).
Defined.

Lemma act_invokes_once_witness :
  PyDict.get (func_map mail_accepted) "strings_to_chars_to_int"
  = Some (mkTool ["text"] false strings_to_chars_to_int)
  /\ normalize "strings_to_chars_to_int" ["text"] (ParamList [VStr "[ab]"])
     = ([], Return [("text", VList [VStr "ab"])])
  /\ calls (act (func_map mail_accepted) "strings_to_chars_to_int" (ParamList [VStr "[ab]"]))
     = [("strings_to_chars_to_int", [("text", VList [VStr "ab"])])].
Proof.
  refine (conj eq_refl (conj eq_refl
            (act_invokes_once (func_map mail_accepted) "strings_to_chars_to_int"
               (mkTool ["text"] false strings_to_chars_to_int) (ParamList [VStr "[ab]"])
               [] [("text", VList [VStr "ab"])] eq_refl eq_refl))).
Defined.

Lemma act_exponential_sum_without_token_witness :
  PyDict.get exponential_registry "int_list_to_exponential_sum"
  = Some (mkTool ["int_list"] false (int_list_to_exponential_sum exp_sum_sample))
  /\ filter (fun n => negb (String.eqb n "self")) ["int_list"] = ["int_list"]
  /\ outcome (act exponential_registry "int_list_to_exponential_sum" (ParamList []))
     = Raise (mkExc IndexError "list index out of range")
  /\ calls (act exponential_registry "int_list_to_exponential_sum" (ParamList [])) = [].
Proof.
  refine (conj eq_refl (conj eq_refl
            (act_exponential_sum_without_token exponential_registry
               (mkTool ["int_list"] false (int_list_to_exponential_sum exp_sum_sample))
               "int_list" eq_refl eq_refl))).
Defined.

Lemma json_token_bound_witness :
  filter (fun n => negb (String.eqb n "self")) ["int_list"] = ["int_list"]
  /\ PyStr.startswith "{" numbers_complete_tight = true
  /\ PyStr.contains (PyStr.quoted "numbers") numbers_complete_tight = true
  /\ Json.loads numbers_complete_tight
     = Return (VDict [("numbers", VList [VInt 1; VInt 2; VInt 3])])
  /\ outcome (normalize "int_list_to_exponential_sum" ["int_list"]
                (ParamList [VStr numbers_complete_tight]))
     = Return [("int_list", VList [VInt 1; VInt 2; VInt 3])].
Proof.
  refine (conj eq_refl (conj eq_refl (conj eq_refl (conj eq_refl
            (proj1 (json_token_bound ["int_list"] "int_list" numbers_complete_tight
                      eq_refl eq_refl eq_refl)
                   [("numbers", VList [VInt 1; VInt 2; VInt 3])] eq_refl))))).
Defined.

Lemma strings_to_chars_to_int_codes_witness :
  is_list_string "INDIA" = false
  /\ act (func_map mail_accepted) "strings_to_chars_to_int" (ParamList [VStr "INDIA"])
     = ([Log (FinalArguments [("text", VStr "INDIA")]);
         Log (CallingTool "strings_to_chars_to_int");
         Called "strings_to_chars_to_int" [("text", VStr "INDIA")]],
        Return (VList [VInt 73; VInt 78; VInt 68; VInt 73; VInt 65]))
  /\ List.length (code_points "INDIA") = 5.
Proof.
  refine (conj eq_refl (strings_to_chars_to_int_codes mail_accepted "INDIA" eq_refl)).
Defined.

Lemma comma_separated_items_witness :
  forallb well_formed items_abc = true
  /\ PyStr.startswith "{" "a, b, c" = false
  /\ parse_int_list (VStr "a, b, c") = Return (VList [VStr "a"; VStr "b"; VStr "c"]).
Proof.
  refine (conj eq_refl (conj eq_refl
            (comma_separated_items
               (mkItem EmptyString EmptyString "a" EmptyString EmptyString)
               (mkItem " " EmptyString "b" EmptyString EmptyString)
               [mkItem " " EmptyString "c" EmptyString EmptyString] eq_refl eq_refl))).
Defined.

Lemma send_email_reports_in_band_witness :
  (forall e, mail_refused (VStr "hello") = Raise e -> isinstance_Exception (exc_class e) = true)
  /\ send_email mail_refused [("text", VStr "hello")]
     = Return (VDict [("content",
                       VList [VTextContent "text"
                                "Error sending mail: Connection unexpectedly closed"])]).
Proof.
  assert (Hclass : forall e, mail_refused (VStr "hello") = Raise e ->
                             isinstance_Exception (exc_class e) = true).
  { intros e [= <-]. reflexivity. }
  split; [exact Hclass|].
  destruct (send_email_reports_in_band mail_refused (VStr "hello") Hclass)
    as (message & Hsent & _ & Hmessage).
  rewrite Hsent, (Hmessage _ eq_refl). reflexivity.
Defined.

Lemma failure_ends_the_run_witness :
  Main.iteration Main.reset_state < Main.max_iterations
  /\ Main.model_names_unknown_tool (Main.iteration_response Main.reset_state)
     = Return "FUNCTION_CALL: open_paint"
  /\ Decision.get_decision "FUNCTION_CALL: open_paint" = (Some "open_paint", Some [])
  /\ outcome (act (func_map mail_accepted) "open_paint" (ParamList (map VStr [])))
     = Raise (mkExc ValueError "Unknown tool: open_paint")
  /\ exists st',
       Main.while (func_map mail_accepted) Main.model_names_unknown_tool (Return "facts")
                  1 Main.reset_state
       = Some (st', Main.Failed)
       /\ Main.iteration st' = 0
       /\ Main.last_response st' = None
       /\ Main.iteration_response st'
          = [Main.ErrorRecord 1 (mkExc ValueError "Unknown tool: open_paint")].
Proof.
  assert (Hbudget : Main.iteration Main.reset_state < Main.max_iterations)
    by (unfold Main.max_iterations; cbn; lia).
  refine (conj Hbudget (conj eq_refl (conj eq_refl (conj eq_refl
            (failure_ends_the_run (func_map mail_accepted) Main.model_names_unknown_tool
               (Return "facts") Main.reset_state
               (mkExc ValueError "Unknown tool: open_paint")
               Hbudget (fun _ => ex_intro _ "facts" eq_refl) eq_refl
               (or_intror
                  (ex_intro _ "FUNCTION_CALL: open_paint"
                     (ex_intro _ "open_paint"
                        (ex_intro _ []
                           (conj eq_refl (conj eq_refl (conj eq_refl eq_refl)))))))
               0))))).
Defined.

Lemma empty_name_ends_the_run_witness :
  Main.iteration Main.reset_state < Main.max_iterations
  /\ Main.model_names_no_tool (Main.iteration_response Main.reset_state)
     = Return "FUNCTION_CALL: |INDIA"
  /\ Decision.get_decision "FUNCTION_CALL: |INDIA" = (Some EmptyString, Some ["INDIA"])
  /\ Main.while (func_map mail_accepted) Main.model_names_no_tool (Return "facts")
                1 Main.reset_state
     = Some (Main.mkState 0 None [Main.FinalAnswerRecord "FUNCTION_CALL: |INDIA"] [],
             Main.FinalAnswer).
Proof.
  assert (Hbudget : Main.iteration Main.reset_state < Main.max_iterations)
    by (unfold Main.max_iterations; cbn; lia).
  refine (conj Hbudget (conj eq_refl (conj eq_refl
            (proj1 (empty_name_ends_the_run (func_map mail_accepted)
                      Main.model_names_no_tool (Return "facts") Main.reset_state
                      "FUNCTION_CALL: |INDIA" (Some ["INDIA"])
                      Hbudget (fun _ => ex_intro _ "facts" eq_refl) eq_refl eq_refl 0))))).
Defined.

Lemma run_without_response_witness :
  Perception.generate_decision_response true (Return (Perception.Response None))
  = Return EmptyString
  /\ Main.while (func_map mail_accepted)
                (fun _ => Perception.generate_decision_response
                            true (Return (Perception.Response None)))
                (Return "facts") Main.max_iterations Main.reset_state
     = Some (Main.mkState 0 None [Main.FinalAnswerRecord EmptyString] [], Main.FinalAnswer).
Proof.
  refine (conj eq_refl
            (run_without_response (func_map mail_accepted) true
               (Return (Perception.Response None)) "facts" eq_refl)).
Defined.

Lemma act_exponential_sum_bare_string_witness :
  PyDict.get exponential_registry "int_list_to_exponential_sum"
  = Some (mkTool ["int_list"] false (int_list_to_exponential_sum exp_sum_sample))
  /\ PyStr.startswith "{" "73" = false
  /\ is_list_string "73" = false
  /\ PyStr.contains "," "73" = false
  /\ outcome (act exponential_registry "int_list_to_exponential_sum" (ParamList [VStr "73"]))
     = Raise (mkExc ValueError
                "String input must be in list format [x,y,z] or JSON format. Got: '73'")
  /\ calls (act exponential_registry "int_list_to_exponential_sum" (ParamList [VStr "73"]))
     = [("int_list_to_exponential_sum", [("int_list", VStr "73")])].
Proof.
  refine (conj eq_refl (conj eq_refl (conj eq_refl (conj eq_refl
            (act_exponential_sum_bare_string exponential_registry exp_sum_sample "73"
               eq_refl eq_refl eq_refl eq_refl))))).
Defined.

End Samples.
